(** * mcp-factor: the client-side data layer

    A shallow embedding of the three stateful pieces of the front end:

    - the editing store           (zustand store [useMCPStore]),
    - the mock REST client        ([src/lib/api-client.ts]),
    - the local-storage helper    ([src/lib/mockStorage.ts]),

    over the data model of [types/mcp.ts].  Typed TypeScript objects are
    records; what crosses [JSON.stringify]/[JSON.parse] is an untyped
    JavaScript value, as it is at run time. *)

From Stdlib Require Import SpecFloat DecimalString.
From stdpp Require Import gmap strings list.

Open Scope string_scope.
Open Scope list_scope.
Set Warnings "-register-all".

(** ** JavaScript values and JSON *)

Module JS.

(** A JavaScript [number] is an IEEE-754 binary64; [spec_float] is the
    Standard Library's specification of those (zeros, infinities, NaN and
    finite values). *)
Abbreviation number := spec_float.

Definition NaN : number := S754_nan.

(** The integer [z] as a number (exact for |z| < 2^53). *)
Definition of_Z (z : Z) : number := binary_normalize 53 1024 z 0 false.

(** The values a variable of type [any] can hold, as far as this program
    produces them: primitives, arrays and plain objects.  An object is its
    list of own properties in enumeration order; a well-formed object has
    no two properties of the same name. *)
Inductive value :=
| VUndefined
| VNull
| VBool (b : bool)
| VNum (n : number)
| VStr (s : string)
| VArr (items : list value)
| VObj (props : list (string * value)).

(** The documents of the JSON grammar.  A number literal is kept as the
    binary64 it denotes; [JSON.stringify] only ever writes finite ones,
    and never a negative zero. *)
Inductive json :=
| JNull
| JBool (b : bool)
| JNum (n : number)
| JStr (s : string)
| JArr (items : list json)
| JObj (members : list (string * json)).

(** A string held by [localStorage]: the JSON document it spells, or text
    that [JSON.parse] rejects with a [SyntaxError]. *)
Inductive text :=
| Doc (j : json)
| Malformed (raw : string).

Inductive exn := SyntaxError | TypeError.

(** [x === s] for a string [s]. *)
Definition strict_eq_string (x : value) (s : string) : bool :=
  match x with
  | VStr s' => bool_decide (s' = s)
  | _ => false
  end.

(** The string a value is, if it is one. *)
Definition as_string (x : value) : option string :=
  match x with
  | VStr s => Some s
  | _ => None
  end.

(** [x !== null] *)
Definition not_null (x : value) : bool :=
  match x with
  | VNull => false
  | _ => true
  end.

(** Number serialization: non-finite numbers are written [null], and
    [-0] is written [0]. *)
Definition SerializeJSONNumber (n : number) : json :=
  match n with
  | S754_nan | S754_infinity _ => JNull
  | S754_zero _ => JNum (S754_zero false)
  | S754_finite _ _ _ => JNum n
  end.

(** [SerializeJSONProperty] of ECMA-262: [None] is the result [undefined].
    In an array an [undefined] element is written [null]; in an object a
    property whose value is [undefined] is left out. *)
Fixpoint SerializeJSONProperty (v : value) : option json :=
  match v with
  | VUndefined => None
  | VNull => Some JNull
  | VBool b => Some (JBool b)
  | VNum n => Some (SerializeJSONNumber n)
  | VStr s => Some (JStr s)
  | VArr items =>
      Some (JArr ((λ x, default JNull (SerializeJSONProperty x)) <$> items))
  | VObj props =>
      Some (JObj (omap (λ kv, pair kv.1 <$> SerializeJSONProperty kv.2) props))
  end.

(** [CreateDataProperty]: set property [k] of an object, in place when it
    exists and at the end otherwise. *)
Fixpoint CreateDataProperty (k : string) (v : value)
    (props : list (string * value)) : list (string * value) :=
  match props with
  | [] => [(k, v)]
  | (k', v') :: rest =>
      if decide (k' = k) then (k, v) :: rest
      else (k', v') :: CreateDataProperty k v rest
  end.

Definition define_all (members : list (string * value))
    (props : list (string * value)) : list (string * value) :=
  foldl (λ o kv, CreateDataProperty kv.1 kv.2 o) props members.

(** The value a JSON document denotes ([JSON.parse] without reviver): the
    members of an object are defined one after the other, a repeated name
    overwriting the earlier value. *)
Fixpoint InternalizeJSON (j : json) : value :=
  match j with
  | JNull => VNull
  | JBool b => VBool b
  | JNum n => VNum n
  | JStr s => VStr s
  | JArr items => VArr (InternalizeJSON <$> items)
  | JObj members =>
      VObj (define_all (prod_map id InternalizeJSON <$> members) [])
  end.

(** [String(JSON.stringify(v))], the text [setItem] stores. *)
Definition JSON_stringify (v : value) : text :=
  match SerializeJSONProperty v with
  | Some j => Doc j
  | None => Malformed "undefined"
  end.

Definition JSON_parse (t : text) : exn + value :=
  match t with
  | Doc j => inr (InternalizeJSON j)
  | Malformed _ => inl SyntaxError
  end.

(** Values that JSON represents exactly: no [undefined] inside, only
    finite numbers other than [-0], and objects whose property names are
    pairwise distinct (which every JavaScript object satisfies). *)
Definition plain_number (n : number) : bool :=
  match n with
  | S754_nan | S754_infinity _ | S754_zero true => false
  | _ => true
  end.

Fixpoint plain (v : value) : bool :=
  match v with
  | VUndefined => false
  | VNull | VBool _ | VStr _ => true
  | VNum n => plain_number n
  | VArr items => forallb plain items
  | VObj props =>
      bool_decide (NoDup props.*1) && forallb (λ kv, plain kv.2) props
  end.

(** An optional property [k?: T] of an object: the key is absent, or it is
    an own key that holds [undefined] (the type [T | undefined] that
    TypeScript gives it, and what a spread of [{ k: undefined }] builds), or
    it is an own key that holds a value. *)
Inductive optional (A : Type) :=
  | Absent
  | Undefined
  | Present (x : A).
Arguments Absent {A}.
Arguments Undefined {A}.
Arguments Present {A} x.

Definition optional_prop {A} (k : string) (f : A → value) (o : optional A)
    : list (string * value) :=
  match o with
  | Absent => []
  | Undefined => [(k, VUndefined)]
  | Present x => [(k, f x)]
  end.

End JS.

Import JS.

(** ** The data model ([types/mcp.ts])

    One module per interface, so that fields keep their names.  An optional
    property [k?: T] of the stored data is an [optional]: [Absent] is the
    absent key, [Undefined] the own key that holds [undefined].  [to_value]
    is the object a record stands for at run time, properties in the order
    of the interface declaration.  [TestResult], which only [executeMCP]
    builds, with every key it has holding a value, keeps [option]. *)

Inductive HTTPMethod := GET | POST | PUT | DELETE | PATCH.

Definition HTTPMethod_string (m : HTTPMethod) : string :=
  match m with
  | GET => "GET" | POST => "POST" | PUT => "PUT"
  | DELETE => "DELETE" | PATCH => "PATCH"
  end.

Inductive AuthType := AuthNone | ApiKey | Bearer | OAuth2 | Basic | Custom.

Definition AuthType_string (a : AuthType) : string :=
  match a with
  | AuthNone => "none" | ApiKey => "api-key" | Bearer => "bearer"
  | OAuth2 => "oauth2" | Basic => "basic" | Custom => "custom"
  end.

Inductive APIStatus := Connected | StatusError | NoKey.

Definition APIStatus_string (s : APIStatus) : string :=
  match s with
  | Connected => "connected" | StatusError => "error" | NoKey => "no-key"
  end.

Inductive PromptType := System | Contextual.

Definition PromptType_string (p : PromptType) : string :=
  match p with
  | System => "system" | Contextual => "contextual"
  end.

Module APIRoute.
Record t := mk {
  id : string;
  method : HTTPMethod;
  path : string;
  description : string
}.
Definition to_value (r : t) : value :=
  VObj [("id", VStr (id r)); ("method", VStr (HTTPMethod_string (method r)));
        ("path", VStr (path r)); ("description", VStr (description r))].
End APIRoute.

Module Authentication.
Record t := mk {
  type : AuthType;
  config : optional (list (string * value))
}.
Definition to_value (a : t) : value :=
  VObj (("type", VStr (AuthType_string (type a)))
        :: optional_prop "config" VObj (config a)).
End Authentication.

Module APIConfig.
Record t := mk {
  id : string;
  name : string;
  baseUrl : string;
  authentication : Authentication.t;
  routes : list APIRoute.t;
  headers : optional (list (string * string));
  timeout : optional number;
  status : optional APIStatus
}.
Definition to_value (a : t) : value :=
  VObj ([("id", VStr (id a)); ("name", VStr (name a));
         ("baseUrl", VStr (baseUrl a));
         ("authentication", Authentication.to_value (authentication a));
         ("routes", VArr (APIRoute.to_value <$> routes a))]
        ++ optional_prop "headers" (λ h, VObj (prod_map Datatypes.id VStr <$> h))
                         (headers a)
        ++ optional_prop "timeout" VNum (timeout a)
        ++ optional_prop "status" (λ s, VStr (APIStatus_string s)) (status a)).
End APIConfig.

Module ResponseMapping.
Record t := mk {
  successPath : optional string;
  errorHandling : optional string
}.
Definition to_value (r : t) : value :=
  VObj (optional_prop "successPath" VStr (successPath r)
        ++ optional_prop "errorHandling" VStr (errorHandling r)).
End ResponseMapping.

Module MCPTool.
Record t := mk {
  id : string;
  name : string;
  displayName : string;
  description : string;
  apiId : string;
  method : string;
  endpoint : string;
  inputSchema : list (string * value);
  responseMapping : optional ResponseMapping.t
}.
Definition to_value (x : t) : value :=
  VObj ([("id", VStr (id x)); ("name", VStr (name x));
         ("displayName", VStr (displayName x));
         ("description", VStr (description x)); ("apiId", VStr (apiId x));
         ("method", VStr (method x)); ("endpoint", VStr (endpoint x));
         ("inputSchema", VObj (inputSchema x))]
        ++ optional_prop "responseMapping" ResponseMapping.to_value
                         (responseMapping x)).
End MCPTool.

Module MCPPrompt.
Record t := mk {
  id : string;
  type : PromptType;
  content : string
}.
Definition to_value (p : t) : value :=
  VObj [("id", VStr (id p)); ("type", VStr (PromptType_string (type p)));
        ("content", VStr (content p))].
End MCPPrompt.

Module MCPResource.
Record t := mk {
  id : string;
  name : string;
  type : string;
  uri : string
}.
Definition to_value (r : t) : value :=
  VObj [("id", VStr (id r)); ("name", VStr (name r));
        ("type", VStr (type r)); ("uri", VStr (uri r))].
End MCPResource.

Module MCPConfiguration.
Record t := mk {
  globalPrompt : string;
  model : string;
  temperature : number;
  maxTokens : number
}.
Definition to_value (c : t) : value :=
  VObj [("globalPrompt", VStr (globalPrompt c)); ("model", VStr (model c));
        ("temperature", VNum (temperature c));
        ("maxTokens", VNum (maxTokens c))].
End MCPConfiguration.

Module MCPIntegration.
Record t := mk {
  id : string;
  name : string;
  description : string;
  version : string;
  format : string;
  author : string;
  createdAt : string;
  updatedAt : string;
  published : bool;
  apis : list APIConfig.t;
  tools : list MCPTool.t;
  prompts : list MCPPrompt.t;
  resources : list MCPResource.t;
  configuration : MCPConfiguration.t;
  stars : optional number;
  reviews : optional number;
  uses : optional number;
  emoji : optional string
}.
Definition to_value (m : t) : value :=
  VObj ([("id", VStr (id m)); ("name", VStr (name m));
         ("description", VStr (description m));
         ("version", VStr (version m)); ("format", VStr (format m));
         ("author", VStr (author m)); ("createdAt", VStr (createdAt m));
         ("updatedAt", VStr (updatedAt m)); ("published", VBool (published m));
         ("apis", VArr (APIConfig.to_value <$> apis m));
         ("tools", VArr (MCPTool.to_value <$> tools m));
         ("prompts", VArr (MCPPrompt.to_value <$> prompts m));
         ("resources", VArr (MCPResource.to_value <$> resources m));
         ("configuration", MCPConfiguration.to_value (configuration m))]
        ++ optional_prop "stars" VNum (stars m)
        ++ optional_prop "reviews" VNum (reviews m)
        ++ optional_prop "uses" VNum (uses m)
        ++ optional_prop "emoji" VStr (emoji m)).

(** [{ ...m, updatedAt }], [{ ...m, apis }], [{ ...m, tools }],
    [{ ...m, prompts }] *)
Definition with_updatedAt (m : t) (v : string) : t :=
  mk (id m) (name m) (description m) (version m) (format m) (author m)
     (createdAt m) v (published m) (apis m) (tools m) (prompts m)
     (resources m) (configuration m) (stars m) (reviews m) (uses m) (emoji m).
Definition with_apis (m : t) (xs : list APIConfig.t) : t :=
  mk (id m) (name m) (description m) (version m) (format m) (author m)
     (createdAt m) (updatedAt m) (published m) xs (tools m) (prompts m)
     (resources m) (configuration m) (stars m) (reviews m) (uses m) (emoji m).
Definition with_tools (m : t) (xs : list MCPTool.t) : t :=
  mk (id m) (name m) (description m) (version m) (format m) (author m)
     (createdAt m) (updatedAt m) (published m) (apis m) xs (prompts m)
     (resources m) (configuration m) (stars m) (reviews m) (uses m) (emoji m).
Definition with_prompts (m : t) (xs : list MCPPrompt.t) : t :=
  mk (id m) (name m) (description m) (version m) (format m) (author m)
     (createdAt m) (updatedAt m) (published m) (apis m) (tools m) xs
     (resources m) (configuration m) (stars m) (reviews m) (uses m) (emoji m).
End MCPIntegration.

Module Position.
Record t := mk { x : number; y : number }.
End Position.

Module NodeData.
Record t := mk {
  label : string;
  type : optional string;
  details : optional value
}.
End NodeData.

Module FlowNode.
Record t := mk {
  id : string;
  type : string;
  position : Position.t;
  data : NodeData.t
}.
End FlowNode.

Module ExecutionStep.
Record t := mk {
  step : number;
  action : string;
  details : string
}.
End ExecutionStep.

Module TokenUsage.
Record t := mk {
  prompt : number;
  completion : number;
  total : number
}.
End TokenUsage.

Module TestResult.
Record t := mk {
  success : bool;
  response : option string;
  executionFlow : option (list ExecutionStep.t);
  tokenUsage : option TokenUsage.t;
  cost : option number;
  error : option string
}.
End TestResult.

(** ** [Partial<T>] and object spread

    A [Partial<T>] is a record with [None], or [Absent] for a property that
    is optional in [T], for a key that the object does not have.
    [assign x p] is [{ ...x, ...p }]: the own keys of [p] win, also one that
    holds [undefined]. *)

Definition over {A} (p : option A) (x : A) : A := default x p.

Definition over_opt {A} (p : optional A) (x : optional A) : optional A :=
  match p with
  | Absent => x
  | Undefined => Undefined
  | Present v => Present v
  end.

Module PartialAPIConfig.
Record t := mk {
  id : option string;
  name : option string;
  baseUrl : option string;
  authentication : option Authentication.t;
  routes : option (list APIRoute.t);
  headers : optional (list (string * string));
  timeout : optional number;
  status : optional APIStatus
}.
Definition empty : t := mk None None None None None Absent Absent Absent.
Definition assign (a : APIConfig.t) (p : t) : APIConfig.t :=
  APIConfig.mk
    (over (id p) (APIConfig.id a))
    (over (name p) (APIConfig.name a))
    (over (baseUrl p) (APIConfig.baseUrl a))
    (over (authentication p) (APIConfig.authentication a))
    (over (routes p) (APIConfig.routes a))
    (over_opt (headers p) (APIConfig.headers a))
    (over_opt (timeout p) (APIConfig.timeout a))
    (over_opt (status p) (APIConfig.status a)).
End PartialAPIConfig.

Module PartialMCPTool.
Record t := mk {
  id : option string;
  name : option string;
  displayName : option string;
  description : option string;
  apiId : option string;
  method : option string;
  endpoint : option string;
  inputSchema : option (list (string * value));
  responseMapping : optional ResponseMapping.t
}.
Definition empty : t := mk None None None None None None None None Absent.
Definition assign (x : MCPTool.t) (p : t) : MCPTool.t :=
  MCPTool.mk
    (over (id p) (MCPTool.id x))
    (over (name p) (MCPTool.name x))
    (over (displayName p) (MCPTool.displayName x))
    (over (description p) (MCPTool.description x))
    (over (apiId p) (MCPTool.apiId x))
    (over (method p) (MCPTool.method x))
    (over (endpoint p) (MCPTool.endpoint x))
    (over (inputSchema p) (MCPTool.inputSchema x))
    (over_opt (responseMapping p) (MCPTool.responseMapping x)).
End PartialMCPTool.

Module PartialMCPPrompt.
Record t := mk {
  id : option string;
  type : option PromptType;
  content : option string
}.
Definition empty : t := mk None None None.
Definition assign (x : MCPPrompt.t) (p : t) : MCPPrompt.t :=
  MCPPrompt.mk
    (over (id p) (MCPPrompt.id x))
    (over (type p) (MCPPrompt.type x))
    (over (content p) (MCPPrompt.content x)).
End PartialMCPPrompt.

Module PartialMCPIntegration.
Record t := mk {
  id : option string;
  name : option string;
  description : option string;
  version : option string;
  format : option string;
  author : option string;
  createdAt : option string;
  updatedAt : option string;
  published : option bool;
  apis : option (list APIConfig.t);
  tools : option (list MCPTool.t);
  prompts : option (list MCPPrompt.t);
  resources : option (list MCPResource.t);
  configuration : option MCPConfiguration.t;
  stars : optional number;
  reviews : optional number;
  uses : optional number;
  emoji : optional string
}.
Definition empty : t :=
  mk None None None None None None None None None
     None None None None None Absent Absent Absent Absent.
Definition assign (m : MCPIntegration.t) (p : t) : MCPIntegration.t :=
  MCPIntegration.mk
    (over (id p) (MCPIntegration.id m))
    (over (name p) (MCPIntegration.name m))
    (over (description p) (MCPIntegration.description m))
    (over (version p) (MCPIntegration.version m))
    (over (format p) (MCPIntegration.format m))
    (over (author p) (MCPIntegration.author m))
    (over (createdAt p) (MCPIntegration.createdAt m))
    (over (updatedAt p) (MCPIntegration.updatedAt m))
    (over (published p) (MCPIntegration.published m))
    (over (apis p) (MCPIntegration.apis m))
    (over (tools p) (MCPIntegration.tools m))
    (over (prompts p) (MCPIntegration.prompts m))
    (over (resources p) (MCPIntegration.resources m))
    (over (configuration p) (MCPIntegration.configuration m))
    (over_opt (stars p) (MCPIntegration.stars m))
    (over_opt (reviews p) (MCPIntegration.reviews m))
    (over_opt (uses p) (MCPIntegration.uses m))
    (over_opt (emoji p) (MCPIntegration.emoji m)).
(** [{ ...m }] as the partial that has every key of [m]. *)
Definition of_full (m : MCPIntegration.t) : t :=
  mk (Some (MCPIntegration.id m)) (Some (MCPIntegration.name m))
     (Some (MCPIntegration.description m)) (Some (MCPIntegration.version m))
     (Some (MCPIntegration.format m)) (Some (MCPIntegration.author m))
     (Some (MCPIntegration.createdAt m)) (Some (MCPIntegration.updatedAt m))
     (Some (MCPIntegration.published m)) (Some (MCPIntegration.apis m))
     (Some (MCPIntegration.tools m)) (Some (MCPIntegration.prompts m))
     (Some (MCPIntegration.resources m))
     (Some (MCPIntegration.configuration m))
     (MCPIntegration.stars m) (MCPIntegration.reviews m)
     (MCPIntegration.uses m) (MCPIntegration.emoji m).
End PartialMCPIntegration.

(** ** The editing store ([useMCPStore]) *)

Module useMCPStore.

Record MCPStore := mk {
  currentMCP : option MCPIntegration.t;
  selectedNode : option FlowNode.t
}.

(** What an updater hands to zustand's [set]: the keys to overwrite. *)
Record patch := mkPatch {
  p_currentMCP : option (option MCPIntegration.t);
  p_selectedNode : option (option FlowNode.t)
}.

(** zustand's [set]: the patch is merged into the state, one level deep. *)
Definition set (f : MCPStore → patch) (state : MCPStore) : MCPStore :=
  mk (over (p_currentMCP (f state)) (currentMCP state))
     (over (p_selectedNode (f state)) (selectedNode state)).

Definition init : MCPStore := mk None None.

Definition setCurrentMCP (mcp : option MCPIntegration.t) : MCPStore → MCPStore :=
  set (λ _, mkPatch (Some mcp) (Some None)).

Definition updateMCP (updates : PartialMCPIntegration.t) : MCPStore → MCPStore :=
  set (λ state, mkPatch
    (Some match currentMCP state with
          | Some m => Some (PartialMCPIntegration.assign m updates)
          | None => None
          end) None).

Definition addAPI (api : APIConfig.t) : MCPStore → MCPStore :=
  set (λ state, mkPatch
    (Some match currentMCP state with
          | Some m =>
              Some (MCPIntegration.with_apis m (MCPIntegration.apis m ++ [api]))
          | None => None
          end) None).

Definition updateAPI (id : string) (updates : PartialAPIConfig.t)
    : MCPStore → MCPStore :=
  set (λ state, mkPatch
    (Some match currentMCP state with
          | Some m =>
              Some (MCPIntegration.with_apis m
                ((λ api, if decide (APIConfig.id api = id)
                         then PartialAPIConfig.assign api updates else api)
                   <$> MCPIntegration.apis m))
          | None => None
          end) None).

Definition deleteAPI (id : string) : MCPStore → MCPStore :=
  set (λ state, mkPatch
    (Some match currentMCP state with
          | Some m =>
              Some (MCPIntegration.with_apis m
                (filter (λ api, APIConfig.id api ≠ id) (MCPIntegration.apis m)))
          | None => None
          end) None).

Definition addTool (tool : MCPTool.t) : MCPStore → MCPStore :=
  set (λ state, mkPatch
    (Some match currentMCP state with
          | Some m =>
              Some (MCPIntegration.with_tools m (MCPIntegration.tools m ++ [tool]))
          | None => None
          end) None).

Definition updateTool (id : string) (updates : PartialMCPTool.t)
    : MCPStore → MCPStore :=
  set (λ state, mkPatch
    (Some match currentMCP state with
          | Some m =>
              Some (MCPIntegration.with_tools m
                ((λ tool, if decide (MCPTool.id tool = id)
                          then PartialMCPTool.assign tool updates else tool)
                   <$> MCPIntegration.tools m))
          | None => None
          end) None).

Definition deleteTool (id : string) : MCPStore → MCPStore :=
  set (λ state, mkPatch
    (Some match currentMCP state with
          | Some m =>
              Some (MCPIntegration.with_tools m
                (filter (λ tool, MCPTool.id tool ≠ id) (MCPIntegration.tools m)))
          | None => None
          end) None).

Definition addPrompt (prompt : MCPPrompt.t) : MCPStore → MCPStore :=
  set (λ state, mkPatch
    (Some match currentMCP state with
          | Some m =>
              Some (MCPIntegration.with_prompts m
                (MCPIntegration.prompts m ++ [prompt]))
          | None => None
          end) None).

Definition updatePrompt (id : string) (updates : PartialMCPPrompt.t)
    : MCPStore → MCPStore :=
  set (λ state, mkPatch
    (Some match currentMCP state with
          | Some m =>
              Some (MCPIntegration.with_prompts m
                ((λ prompt, if decide (MCPPrompt.id prompt = id)
                            then PartialMCPPrompt.assign prompt updates
                            else prompt)
                   <$> MCPIntegration.prompts m))
          | None => None
          end) None).

Definition deletePrompt (id : string) : MCPStore → MCPStore :=
  set (λ state, mkPatch
    (Some match currentMCP state with
          | Some m =>
              Some (MCPIntegration.with_prompts m
                (filter (λ prompt, MCPPrompt.id prompt ≠ id)
                        (MCPIntegration.prompts m)))
          | None => None
          end) None).

Definition selectNode (node : option FlowNode.t) : MCPStore → MCPStore :=
  set (λ _, mkPatch None (Some node)).

End useMCPStore.

(** ** The clock *)

(** [Date.now().toString()]: the reading in milliseconds, in decimal. *)
Definition Date_now_toString (now : Z) : string :=
  NilZero.string_of_int (Z.to_int now).

(** ** The mock REST client ([apiClient]) *)

Module apiClient.

Record Error := mkError { message : string }.

(** How a promise settles. *)
Inductive settled (A : Type) :=
| Fulfilled (a : A)
| Rejected (e : Error).
Arguments Fulfilled {A} a.
Arguments Rejected {A} e.

(** An [async] function of the client: it reads and writes the module-level
    array [mockMCPs] and settles.  Each function runs from its [await] to
    its end without interleaving, so one call is one state transformer. *)
Definition async (A : Type) : Type :=
  list MCPIntegration.t → settled A * list MCPIntegration.t.

Definition resolve {A} (a : A) : async A := λ db, (Fulfilled a, db).
Definition throw {A} (e : Error) : async A := λ db, (Rejected e, db).
Definition await {A B} (p : async A) (k : A → async B) : async B :=
  λ db, match p db with
        | (Fulfilled a, db') => k a db'
        | (Rejected e, db') => (Rejected e, db')
        end.

(** What a call fulfils with, if it does. *)
Definition fulfilled {A} (r : settled A * list MCPIntegration.t) : option A :=
  match r.1 with
  | Fulfilled a => Some a
  | Rejected _ => None
  end.

Notation "'let*' x ':=' p 'in' k" := (await p (λ x, k))
  (at level 10, x name, p at level 100, k at level 200, only parsing).

(** [await new Promise((resolve) => setTimeout(resolve, ms))] *)
Definition delay (ms : nat) : async () := resolve ().

Definition read : async (list MCPIntegration.t) := λ db, (Fulfilled db, db).
Definition push (m : MCPIntegration.t) : async () := λ db, (Fulfilled (), db ++ [m]).
Definition store_at (i : nat) (m : MCPIntegration.t) : async () :=
  λ db, (Fulfilled (), <[i := m]> db).
Definition splice1 (i : nat) : async () := λ db, (Fulfilled (), delete i db).

(** [a || b] on strings: the empty string is falsy, and so is a missing key. *)
Definition or_string (a : option string) (b : string) : string :=
  match a with
  | Some s => if decide (s = "") then b else s
  | None => b
  end.

(** [{ ...p, k: v }] for the keys the client sets. *)
Definition set_id (p : PartialMCPIntegration.t) (v : string) :=
  let 'PartialMCPIntegration.mk _ a b c d e f g h i j k l m n o q r := p in
  PartialMCPIntegration.mk (Some v) a b c d e f g h i j k l m n o q r.
Definition set_name (p : PartialMCPIntegration.t) (v : string) :=
  let 'PartialMCPIntegration.mk z _ b c d e f g h i j k l m n o q r := p in
  PartialMCPIntegration.mk z (Some v) b c d e f g h i j k l m n o q r.
Definition set_author (p : PartialMCPIntegration.t) (v : string) :=
  let 'PartialMCPIntegration.mk z a b c d _ f g h i j k l m n o q r := p in
  PartialMCPIntegration.mk z a b c d (Some v) f g h i j k l m n o q r.
Definition set_published (p : PartialMCPIntegration.t) (v : bool) :=
  let 'PartialMCPIntegration.mk z a b c d e f g _ i j k l m n o q r := p in
  PartialMCPIntegration.mk z a b c d e f g (Some v) i j k l m n o q r.

(** The three integrations [mockMCPs] starts with.  Decimal literals are
    the binary64 values they round to. *)
Definition mockMCPs : list MCPIntegration.t :=
  [ MCPIntegration.mk "1" "Stripe Payment Gateway"
      "Process payments, manage subscriptions, and handle refunds"
      "1.0.0" "mcp" "@johndoe" "2024-01-15" "2024-01-20" true [] [] [] []
      (MCPConfiguration.mk "You are a payment processing assistant." "gpt-4"
         (S754_finite false 6305039478318694 (-53)) (of_Z 1000))
      (Present (S754_finite false 5404319552844595 (-50)))
      (Present (of_Z 124)) (Present (of_Z 2300)) (Present "💳");
    MCPIntegration.mk "2" "Weather API"
      "Get real-time weather data and forecasts for any location"
      "1.2.0" "mcp" "@weatherdev" "2024-01-10" "2024-01-18" true [] [] [] []
      (MCPConfiguration.mk "You are a weather information assistant." "gpt-4"
         (S754_finite false 4503599627370496 (-53)) (of_Z 800))
      (Present (S754_finite false 5179139571476070 (-50)))
      (Present (of_Z 89)) (Present (of_Z 1800)) (Present "🌤️");
    MCPIntegration.mk "3" "GitHub Integration"
      "Manage repositories, issues, and pull requests"
      "2.0.0" "mcp" "@devtools" "2024-01-05" "2024-01-22" true [] [] [] []
      (MCPConfiguration.mk "You are a GitHub assistant." "gpt-4-turbo"
         (S754_finite false 5404319552844595 (-53)) (of_Z 1200))
      (Present (S754_finite false 5516909543528858 (-50)))
      (Present (of_Z 156)) (Present (of_Z 3200)) (Present "🐙") ].

Section WithClock.

(** [new Date(now).toISOString()]; its digits play no role here. *)
Variable toISOString : Z → string.

Definition getMCPs : async (list MCPIntegration.t) :=
  let* _ := delay 500 in
  read.

Definition getMCP (id : string) : async (option MCPIntegration.t) :=
  let* _ := delay 300 in
  let* db := read in
  resolve (snd <$> list_find (λ mcp, MCPIntegration.id mcp = id) db).

(** [now] is the clock when the function resumes after its delay. *)
Definition createMCP (now : Z) (data : PartialMCPIntegration.t)
    : async MCPIntegration.t :=
  let* _ := delay 500 in
  let newMCP :=
    PartialMCPIntegration.assign
      (MCPIntegration.mk
         (Date_now_toString now)
         (or_string (PartialMCPIntegration.name data) "New MCP")
         (or_string (PartialMCPIntegration.description data) "")
         "1.0.0" "mcp" "@currentuser"
         (toISOString now) (toISOString now)
         false [] [] [] []
         (MCPConfiguration.mk "" "gpt-4"
            (S754_finite false 6305039478318694 (-53)) (of_Z 1000))
         Absent Absent Absent Absent)
      data in
  let* _ := push newMCP in
  resolve newMCP.

Definition updateMCP (now : Z) (id : string) (data : PartialMCPIntegration.t)
    : async MCPIntegration.t :=
  let* _ := delay 500 in
  let* db := read in
  match list_find (λ mcp, MCPIntegration.id mcp = id) db with
  | Some (index, old) =>
      let updated :=
        MCPIntegration.with_updatedAt (PartialMCPIntegration.assign old data)
          (toISOString now) in
      let* _ := store_at index updated in
      resolve updated
  | None => throw (mkError "MCP not found")
  end.

Definition deleteMCP (id : string) : async () :=
  let* _ := delay 300 in
  let* db := read in
  match list_find (λ mcp, MCPIntegration.id mcp = id) db with
  | Some (index, _) => splice1 index
  | None => resolve ()
  end.

Definition publishMCP (now : Z) (id : string) : async MCPIntegration.t :=
  updateMCP now id (set_published PartialMCPIntegration.empty true).

(** [now] is the clock when [getMCP] has answered, [now'] the one when the
    inner [createMCP] resumes. *)
Definition forkMCP (now now' : Z) (id : string) : async MCPIntegration.t :=
  let* original := getMCP id in
  match original with
  | None => throw (mkError "MCP not found")
  | Some original =>
      createMCP now'
        (set_author
           (set_published
              (set_name
                 (set_id (PartialMCPIntegration.of_full original)
                         (Date_now_toString now))
                 (MCPIntegration.name original +:+ " (Fork)"))
              false)
           "@currentuser")
  end.

End WithClock.

(** [executeMCP]: a canned result, the query as detail of the first step. *)
Definition executeMCP (id : string) (query : string) : async TestResult.t :=
  let* _ := delay 2000 in
  resolve
    (TestResult.mk true
       (Some "This is a mock response from the MCP execution. The actual implementation would call the LLM and execute the tools.")
       (Some [ExecutionStep.mk (of_Z 1) "Received Query" query;
              ExecutionStep.mk (of_Z 2) "LLM Decision"
                "Analyzing query and selecting appropriate tools";
              ExecutionStep.mk (of_Z 3) "Tool Execution" "Calling API endpoint";
              ExecutionStep.mk (of_Z 4) "Response Generation"
                "Formatting response for user"])
       (Some (TokenUsage.mk (of_Z 150) (of_Z 75) (of_Z 225)))
       (Some (S754_finite false 5188146770730811 (-60)))
       None).

(** A counter of [getUsageStats]: [{ current, limit }]. *)
Record Gauge := mkGauge { current : number; limit : number }.

Record UsageStats := mkUsageStats {
  apiCalls : Gauge;
  tokenUsage : Gauge;
  cost : Gauge
}.

Definition getUsageStats : async UsageStats :=
  let* _ := delay 300 in
  resolve
    (mkUsageStats (mkGauge (of_Z 2450) (of_Z 10000))
                  (mkGauge (of_Z 450000) (of_Z 2000000))
                  (mkGauge (S754_finite false 7008726920095334 (-49)) (of_Z 100))).

End apiClient.

(** ** The local-storage helper ([mockStorage.ts]) *)

Module mockStorage.

Definition MCP_STORAGE_PREFIX : string := "mcp_".
Definition MCP_LIST_KEY : string := "mcp_list".

(** The environment a call runs in: whether [window] is defined, and the
    content of [localStorage].  Writes always fit: a quota failure of
    [setItem] is outside this model. *)
Record env := mkEnv {
  window : bool;
  localStorage : gmap string text
}.

(** A block of statements: it may throw, and keeps what it wrote before. *)
Definition stmt (A : Type) : Type := env → (exn + A) * env.

#[global] Instance stmt_ret : MRet stmt := λ A a e, (inr a, e).
#[global] Instance stmt_bind : MBind stmt := λ A B k p e,
  match p e with
  | (inr a, e') => k a e'
  | (inl x, e') => (inl x, e')
  end.

Definition raise {A} (x : exn) : stmt A := λ e, (inl x, e).

(** [try { body } catch (error) { console.error(..); handler }] *)
Definition try_catch {A} (body : stmt A) (handler : stmt A) : stmt A :=
  λ e, match body e with
       | (inr a, e') => (inr a, e')
       | (inl _, e') => handler e'
       end.

Definition exec {A} (p : stmt A) (e : env) : env := (p e).2.
Definition eval {A} (p : stmt A) (e : env) : exn + A := (p e).1.

(** [typeof window === 'undefined'] *)
Definition window_undefined : stmt bool := λ e, (inr (negb (window e)), e).

Definition getItem (key : string) : stmt (option text) :=
  λ e, (inr (localStorage e !! key), e).
Definition setItem (key : string) (t : text) : stmt () :=
  λ e, (inr (), mkEnv (window e) (<[key := t]> (localStorage e))).
Definition removeItem (key : string) : stmt () :=
  λ e, (inr (), mkEnv (window e) (delete key (localStorage e))).

(** Truthiness of what [getItem] returns: [null] and the empty string are
    falsy. *)
Definition truthy (data : option text) : bool :=
  match data with
  | None | Some (Malformed "") => false
  | Some _ => true
  end.

Definition parse (t : text) : stmt value :=
  match JSON_parse t with
  | inr v => mret v
  | inl x => raise x
  end.

(** Method calls on whatever [getMCPList] returned.  Only an array has
    [push], [filter] and [map]; a string has an [includes] of its own
    (substring search), anything else has none. *)
Definition includes (list : value) (s : string) : stmt bool :=
  match list with
  | VArr items => mret (existsb (λ x, strict_eq_string x s) items)
  | VStr str => mret (bool_decide (is_Some (String.index 0 s str)))
  | _ => raise TypeError
  end.

Definition push (list : value) (x : value) : stmt value :=
  match list with
  | VArr items => mret (VArr (items ++ [x]))
  | _ => raise TypeError
  end.

Definition filter_array (keep : value → bool) (list : value) : stmt value :=
  match list with
  | VArr items => mret (VArr (List.filter keep items))
  | _ => raise TypeError
  end.

Fixpoint map_items {A} (f : value → stmt A) (items : list value) : stmt (list A) :=
  match items with
  | [] => mret []
  | x :: rest => y ← f x; ys ← map_items f rest; mret (y :: ys)
  end.

Definition map_array {A} (f : value → stmt A) (arr : value) : stmt (list A) :=
  match arr with
  | VArr items => map_items f items
  | _ => raise TypeError
  end.

Definition getMCPList : stmt value :=
  w ← window_undefined;
  if w : bool then mret (VArr []) else
  try_catch
    (data ← getItem MCP_LIST_KEY;
     if truthy data then parse (default (Malformed "") data)
     else mret (VArr []))
    (mret (VArr [])).

Definition saveMCPToStorage (mcp : MCPIntegration.t) : stmt () :=
  w ← window_undefined;
  if w : bool then mret () else
  try_catch
    (let key := MCP_STORAGE_PREFIX +:+ MCPIntegration.id mcp in
     setItem key (JSON_stringify (MCPIntegration.to_value mcp));;
     list ← getMCPList;
     present ← includes list (MCPIntegration.id mcp);
     if present : bool then mret () else
     list' ← push list (VStr (MCPIntegration.id mcp));
     setItem MCP_LIST_KEY (JSON_stringify list'))
    (mret ()).

Definition loadMCPFromStorage (id : string) : stmt value :=
  w ← window_undefined;
  if w : bool then mret VNull else
  try_catch
    (let key := MCP_STORAGE_PREFIX +:+ id in
     data ← getItem key;
     if truthy data then parse (default (Malformed "") data)
     else mret VNull)
    (mret VNull).

Definition deleteMCPFromStorage (id : string) : stmt () :=
  w ← window_undefined;
  if w : bool then mret () else
  try_catch
    (let key := MCP_STORAGE_PREFIX +:+ id in
     removeItem key;;
     list ← getMCPList;
     filtered ← filter_array (λ mcpId, negb (strict_eq_string mcpId id)) list;
     setItem MCP_LIST_KEY (JSON_stringify filtered))
    (mret ()).

Section WithToString.

(** The abstract operation [ToString] of ECMA-262, which the template
    literal in [loadMCPFromStorage] applies to its argument: the identity on
    strings, and of no consequence below on anything else. *)
Variable ToString : value → exn + string.

Definition to_string (x : value) : stmt string :=
  match ToString x with
  | inr s => mret s
  | inl x => raise x
  end.

Definition getAllMCPs : stmt (list value) :=
  w ← window_undefined;
  if w : bool then mret [] else
  try_catch
    (list ← getMCPList;
     loaded ← map_array (λ id, k ← to_string id; loadMCPFromStorage k) list;
     mret (List.filter not_null loaded))
    (mret []).

End WithToString.

(** [createNewMCP], with the clock reading and its ISO rendering. *)
Definition createNewMCP (now : Z) (iso : string) : MCPIntegration.t :=
  MCPIntegration.mk (Date_now_toString now) "Untitled MCP" "" "1.0.0" "gpt-4"
    "Anonymous" iso iso false [] [] [] []
    (MCPConfiguration.mk "You are a helpful AI assistant." "gpt-3.5-turbo"
       (S754_finite false 6305039478318694 (-53)) (of_Z 2000))
    Absent Absent Absent Absent.

(** The entries of the index list, when the index is one. *)
Definition index_entries (e : env) : list value :=
  match eval getMCPList e with
  | inr (VArr items) => items
  | _ => []
  end.

End mockStorage.

(** ** Child collections of the held integration

    [apis], [tools] and [prompts] are edited by three operations each.  What
    the nine updaters need from an element is its identifier and the
    spread of a partial over it. *)

Class Entity (E P : Type) := {
  ident : E → string;
  spread : E → P → E;
  partial_ident : P → option string;
  ident_spread : ∀ x p, ident (spread x p) = over (partial_ident p) (ident x)
}.

#[global] Instance APIConfig_entity : Entity APIConfig.t PartialAPIConfig.t := {|
  ident := APIConfig.id;
  spread := PartialAPIConfig.assign;
  partial_ident := PartialAPIConfig.id;
  ident_spread := λ _ _, eq_refl
|}.

#[global] Instance MCPTool_entity : Entity MCPTool.t PartialMCPTool.t := {|
  ident := MCPTool.id;
  spread := PartialMCPTool.assign;
  partial_ident := PartialMCPTool.id;
  ident_spread := λ _ _, eq_refl
|}.

#[global] Instance MCPPrompt_entity : Entity MCPPrompt.t PartialMCPPrompt.t := {|
  ident := MCPPrompt.id;
  spread := PartialMCPPrompt.assign;
  partial_ident := PartialMCPPrompt.id;
  ident_spread := λ _ _, eq_refl
|}.

(** One call of an add, update or delete updater. *)
Inductive op (E P : Type) :=
| Add (x : E)
| Update (id : string) (updates : P)
| Delete (id : string).
Arguments Add {E P} x.
Arguments Update {E P} id updates.
Arguments Delete {E P} id.

Inductive collection := APIs | Tools | Prompts.

Definition item (c : collection) : Type :=
  match c with
  | APIs => APIConfig.t
  | Tools => MCPTool.t
  | Prompts => MCPPrompt.t
  end.

Definition partial (c : collection) : Type :=
  match c with
  | APIs => PartialAPIConfig.t
  | Tools => PartialMCPTool.t
  | Prompts => PartialMCPPrompt.t
  end.

#[global] Instance item_entity (c : collection) : Entity (item c) (partial c) :=
  match c with
  | APIs => APIConfig_entity
  | Tools => MCPTool_entity
  | Prompts => MCPPrompt_entity
  end.

Definition items (c : collection) (m : MCPIntegration.t) : list (item c) :=
  match c with
  | APIs => MCPIntegration.apis m
  | Tools => MCPIntegration.tools m
  | Prompts => MCPIntegration.prompts m
  end.

(** The store updater an operation on collection [c] names. *)
Definition updater (c : collection) (o : op (item c) (partial c))
    : useMCPStore.MCPStore → useMCPStore.MCPStore :=
  match c return op (item c) (partial c) → _ with
  | APIs => λ o,
      match o with
      | Add x => useMCPStore.addAPI x
      | Update id u => useMCPStore.updateAPI id u
      | Delete id => useMCPStore.deleteAPI id
      end
  | Tools => λ o,
      match o with
      | Add x => useMCPStore.addTool x
      | Update id u => useMCPStore.updateTool id u
      | Delete id => useMCPStore.deleteTool id
      end
  | Prompts => λ o,
      match o with
      | Add x => useMCPStore.addPrompt x
      | Update id u => useMCPStore.updatePrompt id u
      | Delete id => useMCPStore.deletePrompt id
      end
  end o.

(** The updaters called one after the other. *)
Definition run (c : collection) (ops : list (op (item c) (partial c)))
    (s : useMCPStore.MCPStore) : useMCPStore.MCPStore :=
  foldl (λ s o, updater c o s) s ops.

Section Collections.
Context {E P : Type} `{Entity E P}.

Definition idents (xs : list E) : list string := ident <$> xs.

(** What one operation does to the list it edits. *)
Definition apply_op (o : op E P) (xs : list E) : list E :=
  match o with
  | Add x => xs ++ [x]
  | Update id u => (λ x, if decide (ident x = id) then spread x u else x) <$> xs
  | Delete id => filter (λ x, ident x ≠ id) xs
  end.

(** The identifiers an update or a delete of the sequence aims at. *)
Fixpoint targets (ops : list (op E P)) : list string :=
  match ops with
  | [] => []
  | Add _ :: ops => targets ops
  | Update id _ :: ops => id :: targets ops
  | Delete id :: ops => id :: targets ops
  end.

Definition untouched (ops : list (op E P)) (xs : list E) : list E :=
  filter (λ x, ident x ∉ targets ops) xs.

(** The identifiers one expects after a sequence, as the specification
    words it: an add appends one, a delete removes the matching one, an
    update leaves them as they are. *)
Fixpoint expected_ids (ops : list (op E P)) (ids : list string) : list string :=
  match ops with
  | [] => ids
  | Add x :: ops => expected_ids ops (ids ++ [ident x])
  | Update _ _ :: ops => expected_ids ops ids
  | Delete id :: ops => expected_ids ops (filter (λ i, i ≠ id) ids)
  end.

(** A sequence that respects identifiers: an add brings one that the
    collection does not have at that point, and the partial of an update
    has no [id] key, or the identifier it aims at. *)
Fixpoint respects_ids (ops : list (op E P)) (ids : list string) : bool :=
  match ops with
  | [] => true
  | Add x :: ops =>
      bool_decide (ident x ∉ ids) && respects_ids ops (ids ++ [ident x])
  | Update id u :: ops =>
      bool_decide (partial_ident u = None ∨ partial_ident u = Some id)
      && respects_ids ops ids
  | Delete id :: ops => respects_ids ops (filter (λ i, i ≠ id) ids)
  end.

End Collections.

(** The identifiers of collection [c] in the held integration. *)
Definition collection_ids (c : collection) (s : useMCPStore.MCPStore)
    : option (list string) :=
  (λ m, idents (items c m)) <$> useMCPStore.currentMCP s.

(** [{ ...m, apis: xs }], [{ ...m, tools: xs }] or [{ ...m, prompts: xs }],
    by the collection. *)
Definition with_items (c : collection) (m : MCPIntegration.t)
    : list (item c) → MCPIntegration.t :=
  match c with
  | APIs => MCPIntegration.with_apis m
  | Tools => MCPIntegration.with_tools m
  | Prompts => MCPIntegration.with_prompts m
  end.

(** The partial [{}] of a collection's elements. *)
Definition empty_partial (c : collection) : partial c :=
  match c with
  | APIs => PartialAPIConfig.empty
  | Tools => PartialMCPTool.empty
  | Prompts => PartialMCPPrompt.empty
  end.

(** The index list reads as the identifiers [ids]: the index key holds
    the JSON array of these strings, or it is missing or unreadable and
    [ids] is empty ([getMCPList] answers the empty array then). *)
Definition index_reads (e : mockStorage.env) (ids : list string) : Prop :=
  mockStorage.localStorage e !! mockStorage.MCP_LIST_KEY
  = Some (Doc (JArr (JStr <$> ids)))
  ∨ ((mockStorage.localStorage e !! mockStorage.MCP_LIST_KEY = None
      ∨ ∃ raw, mockStorage.localStorage e !! mockStorage.MCP_LIST_KEY
               = Some (Malformed raw))
     ∧ ids = []).

(** The record stored for an identifier, as [loadMCPFromStorage] reads it:
    nothing for a missing key and for text that is not JSON. *)
Definition record_of (e : mockStorage.env) (id : string) : option value :=
  match mockStorage.localStorage e !! (mockStorage.MCP_STORAGE_PREFIX +:+ id) with
  | Some (Doc j) => Some (InternalizeJSON j)
  | _ => None
  end.

(** ** The proxy route (the catch-all API route to the backend) *)

Module proxy.

Definition AWS_BACKEND_URL : string := "http://3.136.147.20:8000".

Record Error := mkError { message : string }.

(** An awaited call inside the [try] block: it returns or throws. *)
Inductive attempt (A : Type) :=
| Returned (a : A)
| Thrown (error : Error).
Arguments Returned {A} a.
Arguments Thrown {A} error.

#[global] Instance attempt_ret : MRet attempt := λ A a, Returned a.
#[global] Instance attempt_bind : MBind attempt := λ A B k p,
  match p with
  | Returned a => k a
  | Thrown error => Thrown error
  end.
#[global] Instance attempt_fmap : FMap attempt := λ A B f p,
  match p with
  | Returned a => Returned (f a)
  | Thrown error => Thrown error
  end.

(** What the handler reads of the incoming [NextRequest]:
    [request.nextUrl.searchParams.toString()], and what
    [await request.text()] gives, a thrown error or the body. *)
Record NextRequest := mkRequest {
  searchParams : string;
  request_text : attempt string
}.

(** The second argument of [fetch]. *)
Record RequestInit := mkInit {
  method : string;
  headers : list (string * string);
  body : option string
}.

(** What the handler reads of the reply of [fetch]: [response.status],
    [response.headers.get('Content-Type')] and what
    [await response.text()] gives. *)
Record Reply := mkReply {
  status : Z;
  content_type : option string;
  reply_text : attempt string
}.

Inductive payload :=
| NoBody
| Text (data : string)
| JSONOf (v : value).

(** The response the handler returns. *)
Record NextResponse := mkResponse {
  response_body : payload;
  response_status : Z;
  response_headers : list (string * string)
}.

(** A null body status of the Fetch standard. *)
Definition null_body_status (s : Z) : bool :=
  bool_decide (s ∈ [101; 103; 204; 205; 304]%Z).

Definition CORS : list (string * string) :=
  [("Access-Control-Allow-Origin", "*");
   ("Access-Control-Allow-Methods", "GET, POST, PUT, PATCH, DELETE, OPTIONS");
   ("Access-Control-Allow-Headers", "Content-Type")].

Section WithRuntime.

(** [fetch], the network and the backend behind it. *)
Variable fetch : string → RequestInit → attempt Reply.

(** The message of the error that the [Response] constructor throws for a
    status it refuses. *)
Variable refused : Z → string.

(** [new NextResponse(body, { status, headers })].  The constructor of
    [Response] throws a [RangeError] for a status outside 200 to 599, and
    a [TypeError] for a body that is not [null] with a null body status. *)
Definition new_NextResponse (body : option string) (status : Z)
    (headers : list (string * string)) : attempt NextResponse :=
  if negb (bool_decide (200 ≤ status ≤ 599)%Z) then Thrown (mkError (refused status))
  else match body with
       | Some data =>
           if null_body_status status then Thrown (mkError (refused status))
           else Returned (mkResponse (Text data) status headers)
       | None => Returned (mkResponse NoBody status headers)
       end.

(** [NextResponse.json(v, { status })] *)
Definition NextResponse_json (v : value) (status : Z) : NextResponse :=
  mkResponse (JSONOf v) status [("content-type", "application/json")].

Definition targetUrl (request : NextRequest) (pathSegments : list string)
    : string :=
  AWS_BACKEND_URL +:+ "/" +:+ String.concat "/" pathSegments
  +:+ (if decide (searchParams request = "") then ""
       else "?" +:+ searchParams request).

(** The first half of the [try] block: the body is read unless the method
    is GET or DELETE, and [body || undefined] drops an empty one.  The
    result is what is handed to [fetch]. *)
Definition outgoing (request : NextRequest) (pathSegments : list string)
    (method : string) : attempt (string * RequestInit) :=
  body ← (if bool_decide (method ≠ "GET") && bool_decide (method ≠ "DELETE")
          then Some <$> request_text request
          else Returned None);
  Returned (targetUrl request pathSegments,
       mkInit method [("Content-Type", "application/json")]
              (match body with
               | Some "" | None => None
               | Some text => Some text
               end)).

Definition proxyRequest (request : NextRequest) (pathSegments : list string)
    (method : string) : NextResponse :=
  match
    '(url, init) ← outgoing request pathSegments method;
    response ← fetch url init;
    data ← reply_text response;
    new_NextResponse (Some data) (status response)
      (("Content-Type",
        apiClient.or_string (content_type response) "application/json")
       :: CORS)
  with
  | Returned answer => answer
  | Thrown error =>
      NextResponse_json
        (VObj [("error", VStr "Proxy error"); ("details", VStr (message error))])
        500
  end.

Definition GET (request : NextRequest) (path : list string) : NextResponse :=
  proxyRequest request path "GET".
Definition POST (request : NextRequest) (path : list string) : NextResponse :=
  proxyRequest request path "POST".
Definition PATCH (request : NextRequest) (path : list string) : NextResponse :=
  proxyRequest request path "PATCH".
Definition DELETE (request : NextRequest) (path : list string) : NextResponse :=
  proxyRequest request path "DELETE".
Definition PUT (request : NextRequest) (path : list string) : NextResponse :=
  proxyRequest request path "PUT".

Definition OPTIONS : attempt NextResponse :=
  new_NextResponse None 200 CORS.

End WithRuntime.

End proxy.

(** ** Scenarios and sample data *)


(** The saves of a list of integrations, one after the other. *)
Definition save_all (ms : list MCPIntegration.t) (e : mockStorage.env)
    : mockStorage.env :=
  foldl (λ e m, mockStorage.exec (mockStorage.saveMCPToStorage m) e) e ms.

(** The identifiers among the entries of the index list. *)
Definition index_ids (e : mockStorage.env) : list string :=
  omap as_string (mockStorage.index_entries e).

Module Sample.

(** [new Date(now).toISOString()] for the years 0000 to 9999: the civil
    date of the day number, then the time of day. *)
Fixpoint zeros (n : nat) : string :=
  match n with
  | O => ""
  | S n => "0" +:+ zeros n
  end.

Definition pad (width : nat) (z : Z) : string :=
  zeros (width - String.length (Date_now_toString z)) +:+ Date_now_toString z.

Definition iso (now : Z) : string :=
  let day := (now `div` 86400000 + 719468)%Z in
  let ms := (now `mod` 86400000)%Z in
  let era := (day `div` 146097)%Z in
  let doe := (day - era * 146097)%Z in
  let yoe := ((doe - doe `div` 1460 + doe `div` 36524 - doe `div` 146096)
              `div` 365)%Z in
  let doy := (doe - (365 * yoe + yoe `div` 4 - yoe `div` 100))%Z in
  let mp := ((5 * doy + 2) `div` 153)%Z in
  let d := (doy - (153 * mp + 2) `div` 5 + 1)%Z in
  let m := (if decide (mp < 10)%Z then mp + 3 else mp - 9)%Z in
  let y := (yoe + era * 400 + (if decide (m ≤ 2)%Z then 1 else 0))%Z in
  pad 4 y +:+ "-" +:+ pad 2 m +:+ "-" +:+ pad 2 d +:+ "T"
  +:+ pad 2 (ms `div` 3600000) +:+ ":" +:+ pad 2 ((ms `div` 60000) `mod` 60)
  +:+ ":" +:+ pad 2 ((ms `div` 1000) `mod` 60) +:+ "."
  +:+ pad 3 (ms `mod` 1000) +:+ "Z".

Definition blank : MCPIntegration.t :=
  mockStorage.createNewMCP 1700000000000 (iso 1700000000000).

Definition holding (m : MCPIntegration.t) : useMCPStore.MCPStore :=
  useMCPStore.setCurrentMCP (Some m) useMCPStore.init.

Definition api (id : string) : APIConfig.t :=
  APIConfig.mk id "Orders" "https://api.example.com"
    (Authentication.mk AuthNone Absent) [] Absent Absent Absent.

(** The partial [{ id }]. *)
Definition only_id (id : string) : PartialAPIConfig.t :=
  PartialAPIConfig.mk (Some id) None None None None Absent Absent Absent.

(** The partial [{ name }]. *)
Definition only_name (name : string) : PartialMCPIntegration.t :=
  apiClient.set_name PartialMCPIntegration.empty name.

(** The partial [{ stars: undefined }]. *)
Definition stars_undefined : PartialMCPIntegration.t :=
  PartialMCPIntegration.mk None None None None None None None None
    None None None None None None Undefined Absent Absent Absent.

(** The partial [{ updatedAt }]. *)
Definition only_updatedAt (text : string) : PartialMCPIntegration.t :=
  PartialMCPIntegration.mk None None None None None None None (Some text)
    None None None None None None Absent Absent Absent Absent.

(** An integration with the given identifier and temperature. *)
Definition integration (id : string) (temperature : number) : MCPIntegration.t :=
  MCPIntegration.mk id "Orders" "" "1.0.0" "mcp" "@currentuser"
    (iso 0) (iso 0) false [api "a"] [] [] []
    (MCPConfiguration.mk "" "gpt-4" temperature (of_Z 1000))
    Absent Absent Absent Absent.

Definition browser : mockStorage.env := mockStorage.mkEnv true ∅.

(** [mockMCPs] after [createMCP({ name: "Y" })] at clock 1700000000000. *)
Definition after_create_Y : list MCPIntegration.t :=
  (apiClient.createMCP iso 1700000000000 (only_name "Y") apiClient.mockMCPs).2.

(** [mockMCPs] after [createMCP({ id: "1700000000300", name: "Orders" })]. *)
Definition after_create_with_id : list MCPIntegration.t :=
  (apiClient.createMCP iso 1700000000000
     (apiClient.set_id (only_name "Orders") "1700000000300")
     apiClient.mockMCPs).2.


(** A stand-in for [ToString] that agrees with it on strings, [null],
    [undefined] and booleans, the values the samples put in an index. *)
Definition ToString (x : value) : exn + string :=
  match x with
  | VStr s => inr s
  | VNull => inr "null"
  | VUndefined => inr "undefined"
  | VBool true => inr "true"
  | VBool false => inr "false"
  | _ => inl TypeError
  end.

(** A browser whose storage has the records of "a" and "c", a record of
    "b" that is not JSON, and the index of the three. *)
Definition browser_with_corrupt_b : mockStorage.env :=
  mockStorage.exec
    (mockStorage.setItem "mcp_b" (Malformed "{oops"))
    (save_all [integration "a" (of_Z 1); integration "b" (of_Z 1);
               integration "c" (of_Z 2)] browser).

(** A backend that answers a DELETE with 204 and no content, and anything
    else with 200 and the JSON text [[1,2]]. *)
Definition backend (url : string) (init : proxy.RequestInit)
    : proxy.attempt proxy.Reply :=
  if decide (proxy.method init = "DELETE")
  then proxy.Returned (proxy.mkReply 204 None (proxy.Returned ""))
  else proxy.Returned
         (proxy.mkReply 200 (Some "application/json") (proxy.Returned "[1,2]")).

Definition refused (status : Z) : string := "Invalid response status code".

End Sample.

(** * Properties *)

(** ** The store *)

Section CollectionFacts.
Context {E P : Type} `{Entity E P}.

Lemma idents_delete (id : string) (xs : list E) :
  idents (filter (λ x, ident x ≠ id) xs) = filter (λ i, i ≠ id) (idents xs).
Proof.
  unfold idents. induction xs as [|x xs IH]; [done|].
  rewrite filter_cons, (fmap_cons ident x xs), filter_cons.
  destruct (decide (ident x ≠ id)); rewrite ?fmap_cons; by rewrite IH.
Qed.

Lemma idents_update (id : string) (u : P) (xs : list E) :
  partial_ident u = None ∨ partial_ident u = Some id →
  idents ((λ x, if decide (ident x = id) then spread x u else x) <$> xs)
  = idents xs.
Proof.
  intros Hu. unfold idents. rewrite <- list_fmap_compose.
  apply list_fmap_ext. intros _ x _. simpl.
  destruct (decide (ident x = id)) as [Hx|]; [|done].
  rewrite ident_spread. destruct Hu as [-> | ->]; simpl; congruence.
Qed.

Lemma idents_apply_op (o : op E P) (ops : list (op E P)) (xs : list E) :
  respects_ids (o :: ops) (idents xs) = true →
  respects_ids ops (idents (apply_op o xs)) = true
  ∧ expected_ids (o :: ops) (idents xs) = expected_ids ops (idents (apply_op o xs))
  ∧ (NoDup (idents xs) → NoDup (idents (apply_op o xs))).
Proof.
  destruct o as [x|id u|id]; simpl.
  - intros [Hfresh Hrest]%andb_prop. apply bool_decide_eq_true in Hfresh.
    unfold idents in *. rewrite fmap_app. simpl. split_and!; [done..|].
    intros Hnd. apply NoDup_app. split_and!; [done| |apply NoDup_singleton].
    intros i Hi ->%list_elem_of_singleton. done.
  - intros [Hu Hrest]%andb_prop. apply bool_decide_eq_true in Hu.
    by rewrite idents_update.
  - intros Hrest. rewrite idents_delete. split_and!; [done..|].
    apply NoDup_filter.
Qed.

Lemma foldl_apply_ids (ops : list (op E P)) (xs : list E) :
  respects_ids ops (idents xs) = true →
  NoDup (idents xs) →
  idents (foldl (λ xs o, apply_op o xs) xs ops) = expected_ids ops (idents xs)
  ∧ NoDup (idents (foldl (λ xs o, apply_op o xs) xs ops)).
Proof.
  revert xs. induction ops as [|o ops IH]; intros xs Hok Hnd; [done|].
  destruct (idents_apply_op o ops xs Hok) as (Hok' & -> & Hnd').
  simpl. apply IH; auto.
Qed.

Lemma untouched_apply_op (o : op E P) (ops : list (op E P)) (xs : list E) :
  untouched (o :: ops) xs `sublist_of` untouched ops (apply_op o xs).
Proof.
  unfold untouched. destruct o as [x|id u|id]; simpl.
  - rewrite filter_app. by apply sublist_inserts_r.
  - induction xs as [|x xs IH]; [done|].
    rewrite fmap_cons, !filter_cons.
    destruct (decide (ident x ∉ id :: targets ops)) as [Hx|Hx].
    + apply not_elem_of_cons in Hx as [Hne Hx].
      destruct (decide (ident x = id)) as [?|_]; [done|].
      rewrite decide_True by done. by apply sublist_skip.
    + destruct (decide (ident _ ∉ targets ops)); [by apply sublist_cons|done].
  - induction xs as [|x xs IH]; [done|].
    rewrite !filter_cons.
    destruct (decide (ident x ∉ id :: targets ops)) as [Hx|Hx].
    + apply not_elem_of_cons in Hx as [Hne Hx].
      rewrite decide_True by done. rewrite filter_cons, decide_True by done.
      by apply sublist_skip.
    + destruct (decide (ident x ≠ id)) as [Hne|Heq]; [|done].
      rewrite filter_cons.
      destruct (decide (ident x ∉ targets ops)) as [Hx'|]; [|done].
      exfalso. apply Hx. by apply not_elem_of_cons.
Qed.

Lemma untouched_foldl (ops : list (op E P)) (xs : list E) :
  untouched ops xs `sublist_of` foldl (λ xs o, apply_op o xs) xs ops.
Proof.
  revert xs. induction ops as [|o ops IH]; intros xs.
  - apply sublist_filter.
  - simpl. etransitivity; [apply untouched_apply_op|apply IH].
Qed.

End CollectionFacts.

Lemma updater_held (c : collection) (o : op (item c) (partial c))
    (s : useMCPStore.MCPStore) (m : MCPIntegration.t) :
  useMCPStore.currentMCP s = Some m →
  ∃ m', useMCPStore.currentMCP (updater c o s) = Some m'
        ∧ items c m' = apply_op o (items c m).
Proof.
  intros Hm. destruct c, o; simpl;
    unfold useMCPStore.set; simpl; rewrite Hm; simpl; eexists; split; reflexivity.
Qed.

Lemma run_held (c : collection) (ops : list (op (item c) (partial c)))
    (s : useMCPStore.MCPStore) (m : MCPIntegration.t) :
  useMCPStore.currentMCP s = Some m →
  ∃ m', useMCPStore.currentMCP (run c ops s) = Some m'
        ∧ items c m' = foldl (λ xs o, apply_op o xs) (items c m) ops.
Proof.
  revert s m. induction ops as [|o ops IH]; intros s m Hm.
  - exists m. done.
  - destruct (updater_held c o s m Hm) as (m1 & Hm1 & Hitems).
    destruct (IH _ _ Hm1) as (m' & Hm' & Hitems').
    exists m'. split; [exact Hm'|]. rewrite Hitems'. simpl. by rewrite Hitems.
Qed.

(** C1, as the code has it.  Whatever the sequence of add, update and delete
    calls on one child collection of a held integration, an integration is
    still held, and the elements that no update or delete aims at are all
    there, unchanged and in their original relative order.  When moreover
    the identifiers were distinct, every add brings an identifier that the
    collection does not have and no update changes an identifier, the
    identifiers afterwards are the expected ones, without duplicates. *)
Theorem child_collection_after_operations (c : collection)
    (s : useMCPStore.MCPStore) (m : MCPIntegration.t)
    (ops : list (op (item c) (partial c))) :
  useMCPStore.currentMCP s = Some m →
  ∃ m', useMCPStore.currentMCP (run c ops s) = Some m'
    ∧ untouched ops (items c m) `sublist_of` items c m'
    ∧ (respects_ids ops (idents (items c m)) = true →
       NoDup (idents (items c m)) →
       idents (items c m') = expected_ids ops (idents (items c m))
       ∧ NoDup (idents (items c m'))).
Proof.
  intros Hm. destruct (run_held c ops s m Hm) as (m' & Hm' & Hitems).
  exists m'. rewrite Hitems.
  split_and!; [done|apply untouched_foldl|apply foldl_apply_ids].
Qed.

Lemma child_collection_after_operations_witness :
  ∃ m', useMCPStore.currentMCP
          (run APIs [Add (Sample.api "a"); Add (Sample.api "b");
                     Update "a" (Sample.only_id "a"); Delete "b"]
               (Sample.holding Sample.blank)) = Some m'
    ∧ idents (items APIs m') = ["a"]
    ∧ NoDup (idents (items APIs m')).
Proof.
  destruct (child_collection_after_operations APIs
              (Sample.holding Sample.blank) Sample.blank
              [Add (Sample.api "a"); Add (Sample.api "b");
               Update "a" (Sample.only_id "a"); Delete "b"] eq_refl)
    as (m' & Hm' & _ & Hids).
  exists m'. split; [exact Hm'|].
  apply Hids; [reflexivity|apply NoDup_nil_2].
Defined.

(** C1 as stated fails: adding an element whose identifier is already
    there, or updating an element with a partial that carries another
    element's identifier, leaves two elements with one identifier. *)
Lemma duplicate_identifiers_arise :
  collection_ids APIs (Sample.holding Sample.blank) = Some []
  ∧ collection_ids APIs
      (run APIs [Add (Sample.api "a"); Add (Sample.api "a")]
           (Sample.holding Sample.blank)) = Some ["a"; "a"]
  ∧ collection_ids APIs
      (run APIs [Add (Sample.api "a"); Add (Sample.api "b");
                 Update "b" (Sample.only_id "a")]
           (Sample.holding Sample.blank)) = Some ["a"; "a"]
  ∧ ¬ NoDup ["a"; "a"].
Proof.
  split_and!; [reflexivity..|].
  intros Hnd. apply NoDup_cons in Hnd as [Hnotin _].
  apply Hnotin. apply list_elem_of_here.
Qed.

(** C8.  Whatever the store holds and whatever is passed,
    [setCurrentMCP] leaves no node selected (and holds what was passed). *)
Theorem setCurrentMCP_clears_selection (s : useMCPStore.MCPStore)
    (mcp : option MCPIntegration.t) :
  useMCPStore.selectedNode (useMCPStore.setCurrentMCP mcp s) = None
  ∧ useMCPStore.currentMCP (useMCPStore.setCurrentMCP mcp s) = mcp.
Proof. split; reflexivity. Qed.

(** ** The mock client *)

Lemma find_absent (id : string) (db : list MCPIntegration.t) :
  id ∉ MCPIntegration.id <$> db →
  list_find (λ mcp, MCPIntegration.id mcp = id) db = None.
Proof.
  intros Habsent. apply list_find_None, Forall_forall.
  intros m Hm <-. apply Habsent. by apply list_elem_of_fmap_2.
Qed.

Lemma find_present (id : string) (db : list MCPIntegration.t) :
  id ∈ MCPIntegration.id <$> db →
  ∃ index original,
    list_find (λ mcp, MCPIntegration.id mcp = id) db = Some (index, original)
    ∧ db !! index = Some original ∧ MCPIntegration.id original = id.
Proof.
  intros (m & -> & Hm)%list_elem_of_fmap.
  destruct (list_find_elem_of (λ mcp, MCPIntegration.id mcp = MCPIntegration.id m)
              db m Hm eq_refl) as [[index original] Hfind].
  exists index, original. split; [done|].
  apply list_find_Some in Hfind as (Hlookup & Hid & _). done.
Qed.

(** C5.  [updateMCP] with an identifier that no integration of the backing
    collection has rejects with the error "MCP not found" and leaves the
    collection as it was. *)
Theorem updateMCP_missing_rejects (toISOString : Z → string) (now : Z)
    (id : string) (data : PartialMCPIntegration.t)
    (db : list MCPIntegration.t) :
  id ∉ MCPIntegration.id <$> db →
  apiClient.updateMCP toISOString now id data db
  = (apiClient.Rejected (apiClient.mkError "MCP not found"), db).
Proof.
  intros Habsent. unfold apiClient.updateMCP, apiClient.await. simpl.
  by rewrite find_absent.
Qed.

Lemma updateMCP_missing_rejects_witness :
  apiClient.updateMCP Sample.iso 1700000000000 "missing-id"
    (Sample.only_name "X") apiClient.mockMCPs
  = (apiClient.Rejected (apiClient.mkError "MCP not found"), apiClient.mockMCPs).
Proof.
  apply updateMCP_missing_rejects. vm_compute.
  intros Hin. repeat (apply elem_of_cons in Hin as [Heq|Hin]; [discriminate Heq|]).
  by apply elem_of_nil in Hin.
Defined.

(** C6.  [deleteMCP] with an identifier that no integration of the backing
    collection has fulfils, and leaves the collection as it was. *)
Theorem deleteMCP_missing_succeeds (id : string) (db : list MCPIntegration.t) :
  id ∉ MCPIntegration.id <$> db →
  apiClient.deleteMCP id db = (apiClient.Fulfilled (), db).
Proof.
  intros Habsent. unfold apiClient.deleteMCP, apiClient.await. simpl.
  by rewrite find_absent.
Qed.

Lemma deleteMCP_missing_succeeds_witness :
  apiClient.deleteMCP "missing-id" apiClient.mockMCPs
  = (apiClient.Fulfilled (), apiClient.mockMCPs).
Proof.
  apply deleteMCP_missing_succeeds. vm_compute.
  intros Hin. repeat (apply elem_of_cons in Hin as [Heq|Hin]; [discriminate Heq|]).
  by apply elem_of_nil in Hin.
Defined.

(** C10, as stated, does not hold: the caller's [updatedAt] is the one
    stored when it is the text the clock renders to.  With the clock at
    1700000000000 and the partial [{ updatedAt: "2023-11-14T22:13:20.000Z" }],
    the integration stored at the position of identifier "2", which is also
    the one returned, has the caller's value as its [updatedAt]. *)
Lemma updateMCP_may_store_supplied_updatedAt :
  "2" ∈ MCPIntegration.id <$> apiClient.mockMCPs
  ∧ PartialMCPIntegration.updatedAt
      (Sample.only_updatedAt "2023-11-14T22:13:20.000Z")
    = Some "2023-11-14T22:13:20.000Z"
  ∧ MCPIntegration.updatedAt
      <$> (apiClient.updateMCP Sample.iso 1700000000000 "2"
             (Sample.only_updatedAt "2023-11-14T22:13:20.000Z")
             apiClient.mockMCPs).2 !! 1%nat
    = Some "2023-11-14T22:13:20.000Z"
  ∧ MCPIntegration.updatedAt
      <$> apiClient.fulfilled
            (apiClient.updateMCP Sample.iso 1700000000000 "2"
               (Sample.only_updatedAt "2023-11-14T22:13:20.000Z")
               apiClient.mockMCPs)
    = Some "2023-11-14T22:13:20.000Z".
Proof.
  split; [apply list_elem_of_further, list_elem_of_here|].
  split_and!; vm_compute; reflexivity.
Qed.

(** C10, amended.  [updateMCP] with an identifier of the backing collection
    replaces the first integration that has it, in place, by one whose
    [updatedAt] is the clock's ISO rendering, whatever the partial holds, an
    [updatedAt] of its own included: a caller's value other than the clock's
    rendering is never the one stored.  That integration is also what the
    call returns. *)
Theorem updateMCP_refreshes_updatedAt (toISOString : Z → string) (now : Z)
    (id : string) (data : PartialMCPIntegration.t)
    (db : list MCPIntegration.t) :
  id ∈ MCPIntegration.id <$> db →
  ∃ index original updated,
    list_find (λ mcp, MCPIntegration.id mcp = id) db = Some (index, original)
    ∧ apiClient.updateMCP toISOString now id data db
      = (apiClient.Fulfilled updated, <[index := updated]> db)
    ∧ <[index := updated]> db !! index = Some updated
    ∧ MCPIntegration.updatedAt updated = toISOString now
    ∧ (∀ supplied, PartialMCPIntegration.updatedAt data = Some supplied →
                   supplied ≠ toISOString now →
                   MCPIntegration.updatedAt updated ≠ supplied).
Proof.
  intros (index & original & Hfind & Hlookup & _)%find_present.
  exists index, original. eexists. split; [exact Hfind|].
  unfold apiClient.updateMCP, apiClient.await. simpl. rewrite Hfind. simpl.
  split_and!; [reflexivity| |reflexivity|].
  - apply list_lookup_insert_eq. by eapply lookup_lt_Some.
  - intros supplied _ Hne. simpl. congruence.
Qed.

Lemma updateMCP_refreshes_updatedAt_witness :
  ∃ updated,
    (apiClient.updateMCP Sample.iso 1700000000000 "2"
       (Sample.only_updatedAt "1999-12-31T00:00:00.000Z")
       apiClient.mockMCPs).1 = apiClient.Fulfilled updated
    ∧ MCPIntegration.updatedAt updated = "2023-11-14T22:13:20.000Z"
    ∧ MCPIntegration.updatedAt updated ≠ "1999-12-31T00:00:00.000Z".
Proof.
  destruct (updateMCP_refreshes_updatedAt Sample.iso 1700000000000 "2"
              (Sample.only_updatedAt "1999-12-31T00:00:00.000Z")
              apiClient.mockMCPs)
    as (index & original & updated & _ & Hrun & _ & Hat & Hcaller).
  - vm_compute. apply list_elem_of_further, list_elem_of_here.
  - exists updated. split; [by rewrite Hrun|]. split; [exact Hat|].
    apply Hcaller; [reflexivity|discriminate].
Defined.

Lemma find_appended (id : string) (m : MCPIntegration.t)
    (db : list MCPIntegration.t) :
  id ∉ MCPIntegration.id <$> db →
  MCPIntegration.id m = id →
  list_find (λ mcp, MCPIntegration.id mcp = id) (db ++ [m])
  = Some (length db, m).
Proof.
  intros Hfresh Hid. rewrite list_find_app_r by by apply find_absent.
  simpl. by rewrite decide_True.
Qed.




(** C4, as the code has it.  [forkMCP] of an identifier of the backing
    collection appends and returns a copy of the first integration that has
    it, named after it with " (Fork)" appended, not published, under the
    decimal of the clock as identifier; that identifier differs from the
    original's whenever the original's is not this very decimal. *)
Theorem forkMCP_of_existing (toISOString : Z → string) (now now' : Z)
    (id : string) (db : list MCPIntegration.t) :
  id ∈ MCPIntegration.id <$> db →
  ∃ index original forked,
    list_find (λ mcp, MCPIntegration.id mcp = id) db = Some (index, original)
    ∧ apiClient.forkMCP toISOString now now' id db
      = (apiClient.Fulfilled forked, db ++ [forked])
    ∧ MCPIntegration.name forked = MCPIntegration.name original +:+ " (Fork)"
    ∧ MCPIntegration.published forked = false
    ∧ MCPIntegration.id forked = Date_now_toString now
    ∧ (id ≠ Date_now_toString now →
       MCPIntegration.id forked ≠ MCPIntegration.id original).
Proof.
  intros (index & original & Hfind & _ & Hid)%find_present.
  exists index, original. eexists. split; [exact Hfind|].
  unfold apiClient.forkMCP, apiClient.getMCP, apiClient.await. simpl.
  rewrite Hfind. unfold apiClient.createMCP, apiClient.await. simpl.
  split_and!; [reflexivity..|].
  intros Hne. simpl. congruence.
Qed.

Lemma forkMCP_of_existing_witness :
  ∃ forked,
    (apiClient.forkMCP Sample.iso 1700000000300 1700000000800 "2"
       apiClient.mockMCPs).1 = apiClient.Fulfilled forked
    ∧ MCPIntegration.name forked = "Weather API (Fork)"
    ∧ MCPIntegration.published forked = false
    ∧ MCPIntegration.id forked ≠ "2".
Proof.
  destruct (forkMCP_of_existing Sample.iso 1700000000300 1700000000800 "2"
              apiClient.mockMCPs)
    as (index & original & forked & Hfind & Hrun & Hname & Hpub & _ & Hdiff).
  - vm_compute. apply list_elem_of_further, list_elem_of_here.
  - exists forked. rewrite Hrun. split; [reflexivity|].
    assert (original = default original (apiClient.mockMCPs !! 1)) as Horig.
    { vm_compute in Hfind. by injection Hfind as <- <-. }
    split; [by rewrite Hname, Horig|]. split; [exact Hpub|].
    replace "2" with (MCPIntegration.id original) by by rewrite Horig.
    apply Hdiff. vm_compute. discriminate.
Defined.

(** C4 as stated fails: an integration that was created under a
    caller-chosen identifier, forked when the clock reads that identifier,
    yields a fork with the identifier of its original. *)
Lemma forkMCP_may_reuse_identifier :
  (λ original : option MCPIntegration.t, MCPIntegration.id <$> original)
    <$> apiClient.fulfilled
          (apiClient.getMCP "1700000000300" Sample.after_create_with_id)
  = Some (Some "1700000000300")
  ∧ MCPIntegration.id
      <$> apiClient.fulfilled
            (apiClient.forkMCP Sample.iso 1700000000300 1700000000800
               "1700000000300" Sample.after_create_with_id)
    = Some "1700000000300".
Proof. split; vm_compute; reflexivity. Qed.

(** ** JSON *)

(** Induction over values, with the hypothesis for every element of an
    array and every property value of an object. *)
Lemma value_deep_ind (Q : value → Prop) :
  Q VUndefined → Q VNull → (∀ b, Q (VBool b)) → (∀ n, Q (VNum n)) →
  (∀ s, Q (VStr s)) →
  (∀ items, Forall Q items → Q (VArr items)) →
  (∀ props, Forall (λ kv, Q kv.2) props → Q (VObj props)) →
  ∀ v, Q v.
Proof.
  intros Hundef Hnull Hbool Hnum Hstr Harr Hobj.
  fix go 1.
  intros [ | |b|n|s|items|props];
    [exact Hundef|exact Hnull|apply Hbool|apply Hnum|apply Hstr|..].
  - apply Harr. induction items as [|x items IH]; constructor; [apply go|exact IH].
  - apply Hobj. induction props as [|kv props IH]; constructor; [apply go|exact IH].
Qed.

Lemma CreateDataProperty_fresh (k : string) (v : value)
    (props : list (string * value)) :
  k ∉ props.*1 → CreateDataProperty k v props = props ++ [(k, v)].
Proof.
  induction props as [|[k' v'] props IH]; simpl; [done|].
  intros [Hne Hnotin]%not_elem_of_cons.
  rewrite decide_False by done. by rewrite IH.
Qed.

Lemma define_all_fresh (members props : list (string * value)) :
  NoDup (props.*1 ++ members.*1) → define_all members props = props ++ members.
Proof.
  revert props. induction members as [|[k v] members IH]; intros props Hnd.
  - by rewrite app_nil_r.
  - unfold define_all in *. simpl in *.
    rewrite CreateDataProperty_fresh.
    + rewrite IH; [by rewrite <- app_assoc|].
      rewrite fmap_app. simpl. by rewrite <- app_assoc.
    + apply NoDup_app in Hnd as (_ & Hdisj & _).
      intros Hin. apply (Hdisj k Hin). apply list_elem_of_here.
Qed.

(** A plain value is what [JSON.parse] gives back from what
    [JSON.stringify] wrote. *)
Lemma Internalize_Serialize (v : value) :
  plain v = true → InternalizeJSON <$> SerializeJSONProperty v = Some v.
Proof.
  induction v as [ | |b|n|s|items IH|props IH] using value_deep_ind;
    simpl; try done.
  - by destruct n as [[]|[]| |].
  - intros Hplain. do 2 f_equal. rewrite <- list_fmap_compose.
    induction IH as [|x items Hx _ IHitems]; [done|].
    simpl in Hplain. apply andb_prop in Hplain as [Hpx Hpitems].
    rewrite fmap_cons, IHitems by done. f_equal. simpl.
    specialize (Hx Hpx). by destruct (SerializeJSONProperty x); simplify_eq/=.
  - intros [Hnd Hplain]%andb_prop. apply bool_decide_eq_true in Hnd.
    do 2 f_equal.
    assert (prod_map id InternalizeJSON
              <$> omap (λ kv, pair kv.1 <$> SerializeJSONProperty kv.2) props
            = props) as ->.
    { clear Hnd. induction IH as [|[k x] props Hx _ IHprops]; [done|].
      simpl in Hplain. apply andb_prop in Hplain as [Hpx Hpprops].
      specialize (Hx Hpx). simpl in *.
      destruct (SerializeJSONProperty x); simplify_eq/=.
      by rewrite IHprops. }
    by apply (define_all_fresh props []).
Qed.

Lemma parse_stringify (v : value) :
  plain v = true → JSON_parse (JSON_stringify v) = inr v.
Proof.
  intros Hplain%Internalize_Serialize. unfold JSON_stringify.
  destruct (SerializeJSONProperty v); by simplify_eq/=.
Qed.

(** ** The storage helper *)

Section StorageFacts.
Import mockStorage.

Lemma key_is_index (id : string) :
  MCP_STORAGE_PREFIX +:+ id = MCP_LIST_KEY ↔ id = "list".
Proof.
  unfold MCP_STORAGE_PREFIX, MCP_LIST_KEY.
  split; [intros [= Hid]; exact Hid|by intros ->].
Qed.

Lemma getMCPList_run (e : env) :
  getMCPList e
  = (inr (if window e then
            match localStorage e !! MCP_LIST_KEY with
            | Some (Doc j) => InternalizeJSON j
            | _ => VArr []
            end
          else VArr []), e).
Proof.
  unfold getMCPList, try_catch, window_undefined, getItem, parse, raise.
  unfold mbind, stmt_bind, mret, stmt_ret. simpl.
  destruct (window e); simpl; [|done].
  destruct (localStorage e !! MCP_LIST_KEY) as [[j|raw]|]; simpl; try done.
  by destruct raw.
Qed.

Lemma loadMCPFromStorage_run (id : string) (e : env) :
  loadMCPFromStorage id e
  = (inr (if window e then
            match localStorage e !! (MCP_STORAGE_PREFIX +:+ id) with
            | Some (Doc j) => InternalizeJSON j
            | _ => VNull
            end
          else VNull), e).
Proof.
  unfold loadMCPFromStorage, try_catch, window_undefined, getItem, parse, raise.
  unfold mbind, stmt_bind, mret, stmt_ret. simpl.
  destruct (window e); simpl; [|done].
  destruct (localStorage e !! _) as [[j|raw]|]; simpl; try done.
  by destruct raw.
Qed.

(** What a save does, step by step: the record is written; then the index
    is read back, and extended when it is an array without the
    identifier. *)
Lemma saveMCPToStorage_run (m : MCPIntegration.t) (e : env) :
  window e = true →
  exec (saveMCPToStorage m) e
  = let e1 := exec (setItem (MCP_STORAGE_PREFIX +:+ MCPIntegration.id m)
                      (JSON_stringify (MCPIntegration.to_value m))) e in
    match eval getMCPList e1 with
    | inr (VArr items) =>
        if existsb (λ x, strict_eq_string x (MCPIntegration.id m)) items
        then e1
        else exec (setItem MCP_LIST_KEY
                     (JSON_stringify (VArr (items ++ [VStr (MCPIntegration.id m)]))))
                  e1
    | _ => e1
    end.
Proof.
  destruct e as [w st]. simpl. intros ->.
  unfold exec, eval, saveMCPToStorage, try_catch, window_undefined.
  unfold mbind, stmt_bind, mret, stmt_ret. simpl.
  rewrite !getMCPList_run. simpl.
  destruct (<[_ := _]> st !! MCP_LIST_KEY) as [[j|raw]|]; simpl;
    [destruct (InternalizeJSON j) as [ | |b|n|s|items|props]; simpl; try done| |].
  - by destruct (bool_decide _).
  - by destruct (existsb _ items).
  - done.
  - done.
Qed.

(** What a delete does, step by step: the record is removed; then the
    index is read back and, when it is an array, rewritten without the
    identifier. *)
Lemma deleteMCPFromStorage_run (id : string) (e : env) :
  window e = true →
  exec (deleteMCPFromStorage id) e
  = let e1 := exec (removeItem (MCP_STORAGE_PREFIX +:+ id)) e in
    match eval getMCPList e1 with
    | inr (VArr items) =>
        exec (setItem MCP_LIST_KEY
                (JSON_stringify
                   (VArr (List.filter (λ mcpId, negb (strict_eq_string mcpId id))
                                      items))))
             e1
    | _ => e1
    end.
Proof.
  destruct e as [w st]. simpl. intros ->.
  unfold exec, eval, deleteMCPFromStorage, try_catch, window_undefined.
  unfold mbind, stmt_bind, mret, stmt_ret. simpl.
  rewrite !getMCPList_run. simpl.
  destruct (delete _ st !! MCP_LIST_KEY) as [[j|raw]|]; simpl; try done.
  by destruct (InternalizeJSON j).
Qed.

Lemma without_window (e : env) :
  window e = false →
  (∀ m, exec (saveMCPToStorage m) e = e)
  ∧ (∀ id, exec (deleteMCPFromStorage id) e = e)
  ∧ (∀ id, eval (loadMCPFromStorage id) e = inr VNull)
  ∧ eval getMCPList e = inr (VArr []).
Proof.
  intros Hw. unfold exec, eval, saveMCPToStorage, deleteMCPFromStorage,
    loadMCPFromStorage, getMCPList, window_undefined.
  unfold mbind, stmt_bind, mret, stmt_ret. simpl. by rewrite Hw.
Qed.

Lemma stringify_integration (m : MCPIntegration.t) :
  ∃ members, JSON_stringify (MCPIntegration.to_value m) = Doc (JObj members).
Proof. eexists. reflexivity. Qed.

(** After a save in a browser, the record of the integration is under its
    key, whatever happened to the index. *)
Lemma save_writes_record (m : MCPIntegration.t) (e : env) :
  window e = true →
  window (exec (saveMCPToStorage m) e) = true
  ∧ localStorage (exec (saveMCPToStorage m) e)
      !! (MCP_STORAGE_PREFIX +:+ MCPIntegration.id m)
    = Some (JSON_stringify (MCPIntegration.to_value m)).
Proof.
  intros Hw. rewrite saveMCPToStorage_run by done.
  destruct e as [w st]. simpl in Hw. subst w.
  unfold exec, eval. rewrite getMCPList_run. simpl.
  destruct (decide (MCPIntegration.id m = "list")) as [Hlist|Hother].
  - apply key_is_index in Hlist. rewrite Hlist, lookup_insert_eq.
    destruct (stringify_integration m) as [members ->]. simpl.
    by rewrite lookup_insert_eq.
  - assert (MCP_STORAGE_PREFIX +:+ MCPIntegration.id m ≠ MCP_LIST_KEY) as Hkey
      by by rewrite key_is_index.
    rewrite lookup_insert_ne by done.
    destruct (st !! MCP_LIST_KEY) as [[j|raw]|]; simpl;
      [destruct (InternalizeJSON j) as [ | |b|n|s|items|props]; simpl| |];
      try destruct (existsb _ items); simpl;
      by rewrite ?(lookup_insert_ne _ MCP_LIST_KEY) by done;
         rewrite lookup_insert_eq.
Qed.

(** What JSON can represent has no [undefined]: in such an integration
    each of the four optional keys of the integration itself is absent or
    holds a value (and likewise, through [plain] of the children, theirs). *)
Lemma plain_optional_keys (m : MCPIntegration.t) :
  plain (MCPIntegration.to_value m) = true →
  MCPIntegration.stars m ≠ Undefined
  ∧ MCPIntegration.reviews m ≠ Undefined
  ∧ MCPIntegration.uses m ≠ Undefined
  ∧ MCPIntegration.emoji m ≠ Undefined.
Proof.
  unfold MCPIntegration.to_value. cbn [plain]. intros [_ Hprops]%andb_prop.
  rewrite !forallb_app in Hprops.
  apply andb_prop in Hprops
    as [_ [Hstars [Hreviews [Huses Hemoji]%andb_prop]%andb_prop]%andb_prop].
  split_and!; intros Hundefined;
    rewrite Hundefined in *; discriminate.
Qed.

(** C2, as the code has it.  In a browser, saving an integration and then
    loading its identifier gives the integration back, provided JSON can
    represent it: its numbers are finite and none is a negative zero, and
    no property holds [undefined], neither an optional property of the
    integration or of one of its children, which is absent or holds a
    value, nor a property of one of its free-form objects. *)
Theorem save_then_load_round_trip (e : env) (m : MCPIntegration.t) :
  window e = true →
  plain (MCPIntegration.to_value m) = true →
  eval (loadMCPFromStorage (MCPIntegration.id m)) (exec (saveMCPToStorage m) e)
  = inr (MCPIntegration.to_value m).
Proof.
  intros Hw Hplain. destruct (save_writes_record m e Hw) as [Hw' Hrecord].
  unfold eval. rewrite loadMCPFromStorage_run. simpl.
  rewrite Hw', Hrecord.
  pose proof (parse_stringify _ Hplain) as Hparse.
  destruct (JSON_stringify _) as [j|raw]; [exact Hparse|discriminate Hparse].
Qed.

Lemma omap_cons_match {A B} (f : A → option B) (x : A) (l : list A) :
  omap f (x :: l)
  = match f x with
    | Some y => y :: omap f l
    | None => omap f l
    end.
Proof. reflexivity. Qed.

Lemma as_string_reparse (items : list value) :
  omap as_string
    (InternalizeJSON <$> ((λ x, default JNull (SerializeJSONProperty x)) <$> items))
  = omap as_string items.
Proof.
  induction items as [|x items IH]; [done|].
  rewrite !fmap_cons, !omap_cons_match, IH.
  destruct x as [ | |b|n|s|xs|props]; simpl; try done.
  by destruct n.
Qed.

Lemma includes_as_string (id : string) (items : list value) :
  existsb (λ x, strict_eq_string x id) items = true ↔ id ∈ omap as_string items.
Proof.
  rewrite existsb_exists, list_elem_of_omap. split.
  - intros (x & Hx%list_elem_of_In & Heq). exists x. split; [done|].
    destruct x; simpl in *; try done. by apply bool_decide_eq_true in Heq as ->.
  - intros (x & Hx%list_elem_of_In & Heq). exists x. split; [done|].
    destruct x; simplify_eq/=. by apply bool_decide_eq_true.
Qed.

(** What a save in a browser does to the identifiers of the index. *)
Lemma save_index_ids (m : MCPIntegration.t) (e : env) :
  window e = true →
  (MCPIntegration.id m = "list" ∧ index_ids (exec (saveMCPToStorage m) e) = [])
  ∨ (MCPIntegration.id m ≠ "list"
     ∧ index_ids (exec (saveMCPToStorage m) e) = index_ids e)
  ∨ (MCPIntegration.id m ≠ "list"
     ∧ (MCPIntegration.id m ∉ index_ids e)
     ∧ index_ids (exec (saveMCPToStorage m) e)
       = index_ids e ++ [MCPIntegration.id m]).
Proof.
  intros Hw. rewrite saveMCPToStorage_run by done.
  destruct e as [w st]. simpl in Hw. subst w.
  unfold index_ids, index_entries, exec, eval. rewrite !getMCPList_run. simpl.
  destruct (decide (MCPIntegration.id m = "list")) as [Hlist|Hother].
  - left. split; [done|]. apply key_is_index in Hlist.
    rewrite Hlist, lookup_insert_eq.
    destruct (stringify_integration m) as [members ->]. simpl.
    by rewrite lookup_insert_eq.
  - right.
    assert (MCP_STORAGE_PREFIX +:+ MCPIntegration.id m ≠ MCP_LIST_KEY) as Hkey
      by by rewrite key_is_index.
    rewrite lookup_insert_ne by done.
    destruct (st !! MCP_LIST_KEY) as [[j|raw]|] eqn:Hindex; simpl.
    + destruct (InternalizeJSON j) as [ | |b|n|s|items|props] eqn:Hj; simpl;
        try (left; split; [done|];
             by rewrite lookup_insert_ne, Hindex, ?Hj by done).
      destruct (existsb _ items) eqn:Hhas; simpl.
      * left. split; [done|].
        by rewrite lookup_insert_ne, Hindex, Hj by done.
      * right. split; [done|]. split.
        { rewrite <- includes_as_string. by rewrite Hhas. }
        rewrite lookup_insert_eq. simpl.
        by rewrite as_string_reparse, omap_app.
    + right. split; [done|]. split; [apply not_elem_of_nil|].
      by rewrite lookup_insert_eq.
    + right. split; [done|]. split; [apply not_elem_of_nil|].
      by rewrite lookup_insert_eq.
Qed.

(** After a save in a browser the index, when it is an array, has the
    identifier. *)
Lemma save_index_has (m : MCPIntegration.t) (e : env) :
  window e = true →
  match eval getMCPList (exec (saveMCPToStorage m) e) with
  | inr (VArr items) =>
      existsb (λ x, strict_eq_string x (MCPIntegration.id m)) items = true
  | _ => True
  end.
Proof.
  intros Hw. rewrite saveMCPToStorage_run by done.
  destruct e as [w st]. simpl in Hw. subst w.
  unfold exec, eval. rewrite !getMCPList_run. simpl.
  assert (∀ items, existsb (λ x, strict_eq_string x (MCPIntegration.id m))
            (InternalizeJSON
               <$> ((λ x, default JNull (SerializeJSONProperty x))
                      <$> (items ++ [VStr (MCPIntegration.id m)]))) = true)
    as Hadded.
  { intros items. apply includes_as_string.
    rewrite as_string_reparse, omap_app. apply elem_of_app. right.
    apply list_elem_of_here. }
  destruct (decide (MCPIntegration.id m = "list")) as [Hlist|Hother].
  - apply key_is_index in Hlist. rewrite Hlist, lookup_insert_eq.
    destruct (stringify_integration m) as [members ->]. simpl.
    by rewrite lookup_insert_eq.
  - assert (MCP_STORAGE_PREFIX +:+ MCPIntegration.id m ≠ MCP_LIST_KEY) as Hkey
      by by rewrite key_is_index.
    rewrite lookup_insert_ne by done.
    destruct (st !! MCP_LIST_KEY) as [[j|raw]|] eqn:Hindex; simpl.
    + destruct (InternalizeJSON j) as [ | |b|n|s|items|props] eqn:Hj; simpl;
        try (by rewrite lookup_insert_ne, Hindex, ?Hj by done).
      destruct (existsb _ items) eqn:Hhas; simpl.
      * by rewrite lookup_insert_ne, Hindex, Hj by done.
      * rewrite lookup_insert_eq. simpl. apply Hadded.
    + rewrite lookup_insert_eq. simpl. apply (Hadded []).
    + rewrite lookup_insert_eq. simpl. apply (Hadded []).
Qed.

Lemma save_twice (m : MCPIntegration.t) (e : env) :
  exec (saveMCPToStorage m) (exec (saveMCPToStorage m) e)
  = exec (saveMCPToStorage m) e.
Proof.
  destruct (window e) eqn:Hw;
    [|by rewrite !(proj1 (without_window e Hw))].
  destruct (save_writes_record m e Hw) as [Hw' Hrecord].
  pose proof (save_index_has m e Hw) as Hhas.
  rewrite (saveMCPToStorage_run m (exec (saveMCPToStorage m) e)) by done.
  destruct (exec (saveMCPToStorage m) e) as [w' st']. simpl in *. subst w'.
  assert (exec (setItem (MCP_STORAGE_PREFIX +:+ MCPIntegration.id m)
                  (JSON_stringify (MCPIntegration.to_value m)))
               (mkEnv true st') = mkEnv true st') as ->.
  { unfold exec, setItem. simpl. by rewrite insert_id. }
  destruct (eval getMCPList _) as [x|[ | |b|n|s|items|props]]; try done.
  by rewrite Hhas.
Qed.

Lemma save_keeps_index_ids_distinct (m : MCPIntegration.t) (e : env) :
  NoDup (index_ids e) → NoDup (index_ids (exec (saveMCPToStorage m) e)).
Proof.
  intros Hnd. destruct (window e) eqn:Hw;
    [|by rewrite (proj1 (without_window e Hw))].
  destruct (save_index_ids m e Hw) as [[_ ->]|[[_ ->]|(_ & Hfresh & ->)]].
  - apply NoDup_nil_2.
  - done.
  - apply NoDup_app. split_and!; [done| |apply NoDup_singleton].
    by intros i Hi ->%list_elem_of_singleton.
Qed.

(** C9.  Saving is idempotent: a second save of the same integration
    changes nothing.  A save of an integration whose identifier is in the
    index list adds no entry to it.  And after any sequence of saves the
    identifiers of the index list are pairwise distinct if they were before
    (as they are in an empty storage). *)
Theorem save_index_idempotent :
  (∀ e m, exec (saveMCPToStorage m) (exec (saveMCPToStorage m) e)
          = exec (saveMCPToStorage m) e)
  ∧ (∀ e m, MCPIntegration.id m ∈ index_ids e →
            index_ids (exec (saveMCPToStorage m) e) `sublist_of` index_ids e)
  ∧ (∀ e ms, NoDup (index_ids e) → NoDup (index_ids (save_all ms e))).
Proof.
  split_and!.
  - intros e m. apply save_twice.
  - intros e m Hin. destruct (window e) eqn:Hw;
      [|by rewrite (proj1 (without_window e Hw))].
    destruct (save_index_ids m e Hw) as [[_ ->]|[[_ ->]|(_ & Hfresh & _)]];
      [apply sublist_nil_l|done|done].
  - intros e ms. revert e. induction ms as [|m ms IH]; intros e Hnd; [done|].
    simpl. apply IH. by apply save_keeps_index_ids_distinct.
Qed.

Lemma save_index_idempotent_witness :
  index_ids (save_all [Sample.integration "a" (of_Z 1);
                       Sample.integration "b" (of_Z 1);
                       Sample.integration "a" (of_Z 2)] Sample.browser)
  `sublist_of` ["a"; "b"]
  ∧ NoDup (index_ids (save_all [Sample.integration "a" (of_Z 1);
                                Sample.integration "b" (of_Z 1);
                                Sample.integration "a" (of_Z 2)]
                               Sample.browser)).
Proof.
  destruct save_index_idempotent as (_ & Hsame & Hdistinct). split.
  - apply (Hsame (save_all [Sample.integration "a" (of_Z 1);
                            Sample.integration "b" (of_Z 1)] Sample.browser)
                 (Sample.integration "a" (of_Z 2))).
    vm_compute. apply list_elem_of_here.
  - apply Hdistinct. vm_compute. apply NoDup_nil_2.
Defined.

Lemma map_items_load (ToString : value → exn + string) (items : list value)
    (e : env) :
  match map_items (λ id, k ← to_string ToString id; loadMCPFromStorage k)
                  items e with
  | (inr loaded, e') =>
      e' = e ∧ ∀ v, v ∈ loaded → ∃ k, eval (loadMCPFromStorage k) e = inr v
  | (inl _, e') => e' = e
  end.
Proof.
  induction items as [|x items IH]; simpl.
  - split; [done|]. by intros v Hv%elem_of_nil.
  - unfold mbind, stmt_bind, to_string, raise, mret, stmt_ret in *.
    destruct (ToString x) as [err|k]; simpl; [done|].
    rewrite loadMCPFromStorage_run.
    destruct (map_items _ items e) as [[err|loaded] e']; [done|].
    destruct IH as [-> IH]. split; [done|].
    intros v [->|Hv]%elem_of_cons; [|by apply IH].
    exists k. unfold eval. by rewrite loadMCPFromStorage_run.
Qed.

(** Whatever [getAllMCPs] lists was loaded, and is not [null]. *)
Lemma getAllMCPs_elements (ToString : value → exn + string) (e : env)
    (loaded : list value) (v : value) :
  eval (getAllMCPs ToString) e = inr loaded →
  v ∈ loaded →
  not_null v = true ∧ ∃ k, eval (loadMCPFromStorage k) e = inr v.
Proof.
  unfold eval, getAllMCPs, try_catch, window_undefined.
  unfold mbind, stmt_bind, mret, stmt_ret. simpl.
  destruct (window e); simpl; [|by intros [= <-] Hv%elem_of_nil].
  rewrite getMCPList_run.
  destruct (if window e then _ else _) as [ | |b|n|s|items|props]; simpl;
    try by intros [= <-] Hv%elem_of_nil.
  pose proof (map_items_load ToString items e) as Hitems.
  destruct (map_items _ items e) as [[err|xs] e']; simpl;
    [by intros [= <-] Hv%elem_of_nil|].
  destruct Hitems as [_ Hitems].
  intros [= <-] Hv%list_elem_of_In%filter_In. destruct Hv as [Hv Hnn].
  split; [done|]. apply Hitems. by apply list_elem_of_In.
Qed.

(** Away from the identifier "list", a delete in a browser removes the
    record and the entry of the index; the identifier then loads as
    [null], and what [getAllMCPs] lists are records of other identifiers. *)
Lemma delete_other_than_list (ToString : value → exn + string) (id : string)
    (e : env) :
  window e = true →
  id ≠ "list" →
  localStorage (exec (deleteMCPFromStorage id) e) !! (MCP_STORAGE_PREFIX +:+ id)
  = None
  ∧ (id ∉ index_ids (exec (deleteMCPFromStorage id) e))
  ∧ eval (loadMCPFromStorage id) (exec (deleteMCPFromStorage id) e) = inr VNull
  ∧ ∀ loaded v,
      eval (getAllMCPs ToString) (exec (deleteMCPFromStorage id) e) = inr loaded →
      v ∈ loaded →
      ∃ k, k ≠ id
           ∧ eval (loadMCPFromStorage k) (exec (deleteMCPFromStorage id) e)
             = inr v.
Proof.
  intros Hw Hother.
  assert (MCP_STORAGE_PREFIX +:+ id ≠ MCP_LIST_KEY) as Hkey
    by by rewrite key_is_index.
  assert (window (exec (deleteMCPFromStorage id) e) = true
          ∧ localStorage (exec (deleteMCPFromStorage id) e)
              !! (MCP_STORAGE_PREFIX +:+ id) = None
          ∧ (id ∉ index_ids (exec (deleteMCPFromStorage id) e)))
    as (Hw' & Hgone & Hentry).
  { rewrite deleteMCPFromStorage_run by done.
    destruct e as [w st]. simpl in Hw. subst w.
    unfold index_ids, index_entries, exec, eval. rewrite !getMCPList_run. simpl.
    rewrite lookup_delete_ne by done.
    destruct (st !! MCP_LIST_KEY) as [[j|raw]|] eqn:Hindex; simpl.
    - destruct (InternalizeJSON j) as [ | |b|n|s|items|props] eqn:Hj; simpl;
        try (rewrite lookup_delete_eq, lookup_delete_ne, Hindex, ?Hj by done;
             split_and!; [done..|apply not_elem_of_nil]).
      rewrite lookup_insert_ne, lookup_delete_eq, lookup_insert_eq by done.
      split_and!; [done..|]. simpl. rewrite as_string_reparse.
      intros (x & Hx%list_elem_of_In%filter_In & Hid)%list_elem_of_omap.
      destruct Hx as [_ Hx]. destruct x; simplify_eq/=.
      by rewrite bool_decide_eq_true_2 in Hx.
    - rewrite lookup_insert_ne, lookup_delete_eq, lookup_insert_eq by done.
      split_and!; [done..|apply not_elem_of_nil].
    - rewrite lookup_insert_ne, lookup_delete_eq, lookup_insert_eq by done.
      split_and!; [done..|apply not_elem_of_nil]. }
  assert (eval (loadMCPFromStorage id) (exec (deleteMCPFromStorage id) e)
          = inr VNull) as Hload.
  { unfold eval. rewrite loadMCPFromStorage_run. simpl. by rewrite Hw', Hgone. }
  split_and!; [done..|].
  intros loaded v Hall Hv.
  destruct (getAllMCPs_elements ToString _ loaded v Hall Hv) as [Hnn [k Hk]].
  exists k. split; [|done]. intros ->. rewrite Hload in Hk. by simplify_eq.
Qed.

(** C7 at the identifier "list".  The key of its record, "mcp_" followed by
    the identifier, is the key of the index.  After a save and a delete of
    an integration with this identifier, the key still holds a document,
    the empty index, and a load of the identifier returns an empty array
    instead of [null]. *)
Theorem delete_of_list_leaves_the_index :
  MCP_STORAGE_PREFIX +:+ "list" = MCP_LIST_KEY
  ∧ localStorage
      (exec (deleteMCPFromStorage "list")
         (exec (saveMCPToStorage (Sample.integration "list" (of_Z 1)))
               Sample.browser))
      !! (MCP_STORAGE_PREFIX +:+ "list")
    = Some (Doc (JArr []))
  ∧ eval (loadMCPFromStorage "list")
      (exec (deleteMCPFromStorage "list")
         (exec (saveMCPToStorage (Sample.integration "list" (of_Z 1)))
               Sample.browser))
    = inr (VArr []).
Proof. split_and!; vm_compute; reflexivity. Qed.

(** C2 as stated fails, in two ways.  A temperature that is [NaN] is
    written [null], so what is loaded is not what was saved.  And an
    optional key that holds [undefined], as [stars] does in
    [{ ...m, ...{ stars: undefined } }], is not written at all: what is
    loaded is the integration without that key. *)
Lemma NaN_and_undefined_are_not_restored :
  eval (loadMCPFromStorage "a")
    (exec (saveMCPToStorage (Sample.integration "a" NaN)) Sample.browser)
  ≠ inr (MCPIntegration.to_value (Sample.integration "a" NaN))
  ∧ eval (loadMCPFromStorage "a")
      (exec (saveMCPToStorage
               (PartialMCPIntegration.assign (Sample.integration "a" (of_Z 1))
                  Sample.stars_undefined))
            Sample.browser)
    ≠ inr (MCPIntegration.to_value
             (PartialMCPIntegration.assign (Sample.integration "a" (of_Z 1))
                Sample.stars_undefined))
  ∧ eval (loadMCPFromStorage "a")
      (exec (saveMCPToStorage
               (PartialMCPIntegration.assign (Sample.integration "a" (of_Z 1))
                  Sample.stars_undefined))
            Sample.browser)
    = inr (MCPIntegration.to_value (Sample.integration "a" (of_Z 1))).
Proof. split_and!; vm_compute; [discriminate|discriminate|reflexivity]. Qed.

Lemma save_then_load_round_trip_witness :
  eval (loadMCPFromStorage "a")
    (exec (saveMCPToStorage (Sample.integration "a" (of_Z 1))) Sample.browser)
  = inr (MCPIntegration.to_value (Sample.integration "a" (of_Z 1))).
Proof.
  apply (save_then_load_round_trip Sample.browser
           (Sample.integration "a" (of_Z 1))); reflexivity.
Defined.

End StorageFacts.

(** * More of the code *)

(** ** The store, beyond the claims *)

Lemma with_items_same (c : collection) (m : MCPIntegration.t) :
  with_items c m (items c m) = m.
Proof. by destruct c, m. Qed.

Lemma items_with_items (c : collection) (m : MCPIntegration.t)
    (xs : list (item c)) :
  items c (with_items c m xs) = xs.
Proof. by destruct c. Qed.

Lemma with_items_twice (c : collection) (m : MCPIntegration.t)
    (xs ys : list (item c)) :
  with_items c (with_items c m xs) ys = with_items c m ys.
Proof. by destruct c. Qed.

Lemma items_with_other (c c' : collection) (m : MCPIntegration.t)
    (xs : list (item c)) :
  c' ≠ c → items c' (with_items c m xs) = items c' m.
Proof. by destruct c, c'. Qed.

(** One updater on a state that holds [m]. *)
Lemma updater_state (c : collection) (o : op (item c) (partial c))
    (s : useMCPStore.MCPStore) (m : MCPIntegration.t) :
  useMCPStore.currentMCP s = Some m →
  updater c o s
  = useMCPStore.mk (Some (with_items c m (apply_op o (items c m))))
                   (useMCPStore.selectedNode s).
Proof.
  destruct s as [held node]. simpl. intros ->. by destruct c, o.
Qed.

Lemma run_state (c : collection) (ops : list (op (item c) (partial c)))
    (s : useMCPStore.MCPStore) (m : MCPIntegration.t) :
  useMCPStore.currentMCP s = Some m →
  run c ops s
  = useMCPStore.mk
      (Some (with_items c m (foldl (λ xs o, apply_op o xs) (items c m) ops)))
      (useMCPStore.selectedNode s).
Proof.
  revert s m. induction ops as [|o ops IH]; intros s m Hm.
  - destruct s as [held node]. simpl in *. subst held. by rewrite with_items_same.
  - simpl. change (foldl _ (updater c o s) ops) with (run c ops (updater c o s)).
    rewrite (updater_state c o s m Hm).
    erewrite IH by reflexivity. simpl.
    by rewrite items_with_items, with_items_twice.
Qed.

Lemma filter_all {A} (Q : A → Prop) `{∀ x, Decision (Q x)} (l : list A) :
  Forall Q l → filter Q l = l.
Proof.
  induction 1 as [|x l Hx _ IH]; [done|].
  by rewrite filter_cons, decide_True, IH.
Qed.

Lemma filter_ident_absent `{Entity E P} (id : string) (xs : list E) :
  id ∉ idents xs → filter (λ x, ident x ≠ id) xs = xs.
Proof.
  intros Habsent. apply filter_all, Forall_forall. intros x Hx Heq.
  apply Habsent. subst id. unfold idents. by apply list_elem_of_fmap_2.
Qed.

Lemma over_twice {A} (p : option A) (x : A) : over p (over p x) = over p x.
Proof. by destruct p. Qed.

Lemma over_opt_twice {A} (p x : optional A) :
  over_opt p (over_opt p x) = over_opt p x.
Proof. by destruct p. Qed.

Lemma spread_empty (c : collection) (x : item c) :
  spread x (empty_partial c) = x.
Proof. by destruct c, x. Qed.

(** X1.  While no integration is held, the top-level update and every add,
    update and delete of a child collection leave the whole state as it is:
    nothing is held afterwards either, and the selection stays. *)
Theorem updaters_without_integration (s : useMCPStore.MCPStore)
    (u : PartialMCPIntegration.t) (c : collection)
    (o : op (item c) (partial c)) :
  useMCPStore.currentMCP s = None →
  useMCPStore.updateMCP u s = s ∧ updater c o s = s.
Proof.
  destruct s as [held node]. simpl. intros ->.
  split; [reflexivity|by destruct c, o].
Qed.

Lemma updaters_without_integration_witness :
  useMCPStore.updateMCP (Sample.only_name "X") useMCPStore.init
  = useMCPStore.init
  ∧ updater APIs (Add (Sample.api "a")) useMCPStore.init = useMCPStore.init.
Proof. apply updaters_without_integration. reflexivity. Defined.

(** X2.  A sequence of operations on one child collection of a held
    integration touches nothing else: the selection is kept, and the
    integration held afterwards is the original with that one collection
    replaced, so the other two collections are as they were. *)
Theorem operations_touch_one_collection (c : collection)
    (ops : list (op (item c) (partial c)))
    (s : useMCPStore.MCPStore) (m : MCPIntegration.t) :
  useMCPStore.currentMCP s = Some m →
  useMCPStore.selectedNode (run c ops s) = useMCPStore.selectedNode s
  ∧ ∃ m', useMCPStore.currentMCP (run c ops s) = Some m'
          ∧ m' = with_items c m (items c m')
          ∧ ∀ c', c' ≠ c → items c' m' = items c' m.
Proof.
  intros Hm. rewrite (run_state c ops s m Hm). simpl. split; [done|].
  eexists. split; [reflexivity|]. split.
  - by rewrite items_with_items.
  - intros c' Hc'. by apply items_with_other.
Qed.

Lemma operations_touch_one_collection_witness :
  ∃ m', useMCPStore.currentMCP
          (run APIs [Add (Sample.api "a"); Delete "b"]
               (Sample.holding (Sample.integration "i" (of_Z 1)))) = Some m'
        ∧ items Tools m' = [] ∧ items Prompts m' = [].
Proof.
  destruct (operations_touch_one_collection APIs
              [Add (Sample.api "a"); Delete "b"]
              (Sample.holding (Sample.integration "i" (of_Z 1)))
              (Sample.integration "i" (of_Z 1)) eq_refl)
    as (_ & m' & Hm' & _ & Hothers).
  exists m'. split; [exact Hm'|].
  split; [apply (Hothers Tools)|apply (Hothers Prompts)]; discriminate.
Defined.

(** X3.  A delete removes every element that has the identifier, not only
    the first, keeps the others in their order, and is idempotent. *)
Theorem delete_removes_every_match (c : collection) (id : string)
    (s : useMCPStore.MCPStore) (m : MCPIntegration.t) :
  useMCPStore.currentMCP s = Some m →
  (∃ m', useMCPStore.currentMCP (updater c (Delete id) s) = Some m'
         ∧ (id ∉ idents (items c m'))
         ∧ items c m' `sublist_of` items c m
         ∧ ∀ x, x ∈ items c m → ident x ≠ id → x ∈ items c m')
  ∧ updater c (Delete id) (updater c (Delete id) s) = updater c (Delete id) s.
Proof.
  intros Hm. rewrite (updater_state c (Delete id) s m Hm). split.
  - eexists. split; [reflexivity|]. rewrite items_with_items. simpl.
    split_and!.
    + unfold idents. intros (x & Hid & Hx)%list_elem_of_fmap.
      by apply list_elem_of_filter in Hx as [Hne _].
    + apply sublist_filter.
    + intros x Hx Hne. by apply list_elem_of_filter.
  - erewrite (updater_state c (Delete id)) by reflexivity. simpl.
    rewrite items_with_items, with_items_twice. simpl.
    do 2 f_equal. f_equal. apply filter_all, Forall_forall.
    by intros x [Hne _]%list_elem_of_filter.
Qed.

Lemma delete_removes_every_match_witness :
  ∃ m', useMCPStore.currentMCP
          (updater APIs (Delete "a")
             (run APIs [Add (Sample.api "a"); Add (Sample.api "b");
                        Add (Sample.api "a")]
                  (Sample.holding Sample.blank))) = Some m'
        ∧ "a" ∉ idents (items APIs m').
Proof.
  destruct (delete_removes_every_match APIs "a"
              (run APIs [Add (Sample.api "a"); Add (Sample.api "b");
                         Add (Sample.api "a")]
                   (Sample.holding Sample.blank))
              (MCPIntegration.with_apis Sample.blank
                 [Sample.api "a"; Sample.api "b"; Sample.api "a"]) eq_refl)
    as [(m' & Hm' & Hgone & _) _].
  exists m'. split; [exact Hm'|exact Hgone].
Defined.

(** X4.  An update changes nothing when its partial is empty, and nothing
    when no element of the collection has the identifier it aims at. *)
Theorem update_without_effect (c : collection) (id : string) (u : partial c)
    (s : useMCPStore.MCPStore) :
  updater c (Update id (empty_partial c)) s = s
  ∧ ((∀ m, useMCPStore.currentMCP s = Some m → id ∉ idents (items c m)) →
     updater c (Update id u) s = s).
Proof.
  destruct s as [[m|] node]; [|split; [|intros _]; by destruct c].
  split.
  - erewrite updater_state by reflexivity. simpl. do 2 f_equal.
    etransitivity; [|apply with_items_same]. f_equal.
    etransitivity; [|apply list_fmap_id]. apply list_fmap_ext.
    intros _ x _. simpl. destruct (decide _); [apply spread_empty|done].
  - intros Habsent. specialize (Habsent m eq_refl).
    erewrite updater_state by reflexivity. simpl. do 2 f_equal.
    etransitivity; [|apply with_items_same]. f_equal.
    etransitivity; [|apply list_fmap_id]. apply list_fmap_ext.
    intros i x Hx. simpl. destruct (decide _) as [Heq|]; [|done].
    exfalso. apply Habsent. subst id. unfold idents.
    apply list_elem_of_fmap_2. by eapply list_elem_of_lookup_2.
Qed.

Lemma update_without_effect_witness :
  updater APIs (Update "b" (Sample.only_id "c"))
    (Sample.holding (Sample.integration "i" (of_Z 1)))
  = Sample.holding (Sample.integration "i" (of_Z 1)).
Proof.
  apply (update_without_effect APIs "b" (Sample.only_id "c")).
  intros m [= <-]. vm_compute.
  intros Hin. apply elem_of_cons in Hin as [Heq|Hin]; [discriminate Heq|].
  by apply elem_of_nil in Hin.
Defined.

(** X5.  Adding an element whose identifier the collection does not have
    and then deleting that identifier gives the state back. *)
Theorem add_then_delete_restores (c : collection) (x : item c)
    (s : useMCPStore.MCPStore) (m : MCPIntegration.t) :
  useMCPStore.currentMCP s = Some m →
  ident x ∉ idents (items c m) →
  updater c (Delete (ident x)) (updater c (Add x) s) = s.
Proof.
  intros Hm Hfresh. rewrite (updater_state c (Add x) s m Hm).
  erewrite (updater_state c (Delete _)) by reflexivity. simpl.
  rewrite items_with_items, with_items_twice. simpl.
  rewrite filter_app, filter_ident_absent by done.
  rewrite filter_cons, decide_False by (by intros Hne; apply Hne).
  rewrite filter_nil, app_nil_r, with_items_same.
  destruct s as [held node]. simpl in *. by subst held.
Qed.

Lemma add_then_delete_restores_witness :
  updater APIs (Delete "b")
    (updater APIs (Add (Sample.api "b"))
       (Sample.holding (Sample.integration "i" (of_Z 1))))
  = Sample.holding (Sample.integration "i" (of_Z 1)).
Proof.
  apply (add_then_delete_restores APIs (Sample.api "b")
           (Sample.holding (Sample.integration "i" (of_Z 1)))
           (Sample.integration "i" (of_Z 1)) eq_refl).
  vm_compute. intros Hin.
  apply elem_of_cons in Hin as [Heq|Hin]; [discriminate Heq|].
  by apply elem_of_nil in Hin.
Defined.

(** X6.  The top-level update of the store is a merge.  When an integration
    is held, the one held afterwards has, for every key, the partial's value
    when the partial has the key (an optional key that holds [undefined]
    included) and the value held before otherwise.  The empty partial
    changes nothing, applying the same partial twice is applying it once,
    and the selection is never touched. *)
Theorem updateMCP_store_merge (u : PartialMCPIntegration.t)
    (s : useMCPStore.MCPStore) :
  useMCPStore.updateMCP PartialMCPIntegration.empty s = s
  ∧ useMCPStore.updateMCP u (useMCPStore.updateMCP u s)
    = useMCPStore.updateMCP u s
  ∧ useMCPStore.selectedNode (useMCPStore.updateMCP u s)
    = useMCPStore.selectedNode s
  ∧ ∀ m, useMCPStore.currentMCP s = Some m →
    ∃ merged,
      useMCPStore.currentMCP (useMCPStore.updateMCP u s) = Some merged
      ∧ MCPIntegration.id merged
        = default (MCPIntegration.id m) (PartialMCPIntegration.id u)
      ∧ MCPIntegration.name merged
        = default (MCPIntegration.name m) (PartialMCPIntegration.name u)
      ∧ MCPIntegration.description merged
        = default (MCPIntegration.description m) (PartialMCPIntegration.description u)
      ∧ MCPIntegration.version merged
        = default (MCPIntegration.version m) (PartialMCPIntegration.version u)
      ∧ MCPIntegration.format merged
        = default (MCPIntegration.format m) (PartialMCPIntegration.format u)
      ∧ MCPIntegration.author merged
        = default (MCPIntegration.author m) (PartialMCPIntegration.author u)
      ∧ MCPIntegration.createdAt merged
        = default (MCPIntegration.createdAt m) (PartialMCPIntegration.createdAt u)
      ∧ MCPIntegration.updatedAt merged
        = default (MCPIntegration.updatedAt m) (PartialMCPIntegration.updatedAt u)
      ∧ MCPIntegration.published merged
        = default (MCPIntegration.published m) (PartialMCPIntegration.published u)
      ∧ MCPIntegration.apis merged
        = default (MCPIntegration.apis m) (PartialMCPIntegration.apis u)
      ∧ MCPIntegration.tools merged
        = default (MCPIntegration.tools m) (PartialMCPIntegration.tools u)
      ∧ MCPIntegration.prompts merged
        = default (MCPIntegration.prompts m) (PartialMCPIntegration.prompts u)
      ∧ MCPIntegration.resources merged
        = default (MCPIntegration.resources m) (PartialMCPIntegration.resources u)
      ∧ MCPIntegration.configuration merged
        = default (MCPIntegration.configuration m) (PartialMCPIntegration.configuration u)
      ∧ MCPIntegration.stars merged
        = match PartialMCPIntegration.stars u with
          | Absent => MCPIntegration.stars m
          | taken => taken
          end
      ∧ MCPIntegration.reviews merged
        = match PartialMCPIntegration.reviews u with
          | Absent => MCPIntegration.reviews m
          | taken => taken
          end
      ∧ MCPIntegration.uses merged
        = match PartialMCPIntegration.uses u with
          | Absent => MCPIntegration.uses m
          | taken => taken
          end
      ∧ MCPIntegration.emoji merged
        = match PartialMCPIntegration.emoji u with
          | Absent => MCPIntegration.emoji m
          | taken => taken
          end.
Proof.
  split_and!.
  - destruct s as [[m|] node]; [|done]. by destruct m.
  - destruct s as [[m|] node]; [|done].
    unfold useMCPStore.updateMCP, useMCPStore.set. simpl. do 2 f_equal.
    unfold PartialMCPIntegration.assign. simpl.
    by rewrite !over_twice, !over_opt_twice.
  - by destruct s as [[m|] node].
  - intros m Hm. destruct s as [held node]. simpl in Hm. subst held.
    eexists. split; [reflexivity|]. simpl.
    split_and!; try reflexivity;
      by match goal with
         | |- over_opt ?p _ = _ => destruct p
         end.
Qed.

Lemma updateMCP_store_merge_witness :
  ∃ merged,
    useMCPStore.currentMCP
      (useMCPStore.updateMCP (Sample.only_name "X")
         (Sample.holding Sample.blank)) = Some merged
    ∧ MCPIntegration.id merged = "1700000000000"
    ∧ MCPIntegration.name merged = "X"
    ∧ MCPIntegration.version merged = "1.0.0"
    ∧ MCPIntegration.stars merged = Absent.
Proof.
  destruct (updateMCP_store_merge (Sample.only_name "X")
              (Sample.holding Sample.blank)) as (_ & _ & _ & Hmerge).
  destruct (Hmerge Sample.blank) as (merged & Hheld & Hid & Hname & _ & Hversion
    & _ & _ & _ & _ & _ & _ & _ & _ & _ & _ & Hstars & _).
  - reflexivity.
  - exists merged. split; [exact Hheld|].
    split; [exact Hid|]. split; [exact Hname|]. split; [exact Hversion|].
    exact Hstars.
Defined.

(** ** The mock client, beyond the claims *)

Lemma delete_at_occurrence {A} (l : list A) (i : nat) (x : A) :
  NoDup l → l !! i = Some x → x ∉ delete i l.
Proof.
  intros Hnd Hi. rewrite delete_take_drop.
  rewrite <- (take_drop_middle l i x Hi) in Hnd.
  apply NoDup_app in Hnd as (_ & Hleft & Hright%NoDup_cons).
  intros [Hin|Hin]%elem_of_app.
  - apply (Hleft x Hin). apply list_elem_of_here.
  - by destruct Hright.
Qed.


(** X8.  [getMCP] never rejects and never writes.  It answers [null]
    exactly when no integration has the identifier; otherwise it answers
    the first integration of the collection that has it. *)
Theorem getMCP_finds_first (id : string) (db : list MCPIntegration.t) :
  ∃ found,
    apiClient.getMCP id db = (apiClient.Fulfilled found, db)
    ∧ (found = None ↔ id ∉ MCPIntegration.id <$> db)
    ∧ ∀ m, found = Some m →
        MCPIntegration.id m = id
        ∧ ∃ i, db !! i = Some m
               ∧ ∀ j y, db !! j = Some y → j < i → MCPIntegration.id y ≠ id.
Proof.
  eexists. split; [reflexivity|]. split.
  - split.
    + intros Hnone Hin. apply find_present in Hin as (i & x & Hfind & _).
      by rewrite Hfind in Hnone.
    + intros Habsent. by rewrite find_absent.
  - intros m Hm.
    destruct (list_find _ db) as [[i x]|] eqn:Hfind; simplify_eq/=.
    apply list_find_Some in Hfind as (Hi & Hid & Hfirst). eauto.
Qed.

Lemma getMCP_finds_first_witness :
  apiClient.fulfilled (apiClient.getMCP "missing-id" apiClient.mockMCPs)
  = Some None.
Proof.
  destruct (getMCP_finds_first "missing-id" apiClient.mockMCPs)
    as (found & Hrun & [_ Hnone] & _).
  unfold apiClient.fulfilled. rewrite Hrun. simpl. f_equal. apply Hnone.
  vm_compute. intros Hin.
  repeat (apply elem_of_cons in Hin as [Heq|Hin]; [discriminate Heq|]).
  by apply elem_of_nil in Hin.
Defined.



(** X10.  [publishMCP] rejects with "MCP not found" and writes nothing
    when no integration has the identifier.  Otherwise it replaces the
    first integration that has it by the same integration with [published]
    true and the clock as [updatedAt], and returns it. *)
Theorem publishMCP_publishes (toISOString : Z → string) (now : Z)
    (id : string) (db : list MCPIntegration.t) :
  (id ∉ MCPIntegration.id <$> db →
   apiClient.publishMCP toISOString now id db
   = (apiClient.Rejected (apiClient.mkError "MCP not found"), db))
  ∧ (id ∈ MCPIntegration.id <$> db →
     ∃ index original updated,
       list_find (λ mcp, MCPIntegration.id mcp = id) db = Some (index, original)
       ∧ apiClient.publishMCP toISOString now id db
         = (apiClient.Fulfilled updated, <[index := updated]> db)
       ∧ MCPIntegration.published updated = true
       ∧ MCPIntegration.updatedAt updated = toISOString now
       ∧ MCPIntegration.id updated = id
       ∧ MCPIntegration.name updated = MCPIntegration.name original
       ∧ MCPIntegration.description updated = MCPIntegration.description original
       ∧ MCPIntegration.version updated = MCPIntegration.version original
       ∧ MCPIntegration.format updated = MCPIntegration.format original
       ∧ MCPIntegration.author updated = MCPIntegration.author original
       ∧ MCPIntegration.createdAt updated = MCPIntegration.createdAt original
       ∧ MCPIntegration.apis updated = MCPIntegration.apis original
       ∧ MCPIntegration.tools updated = MCPIntegration.tools original
       ∧ MCPIntegration.prompts updated = MCPIntegration.prompts original
       ∧ MCPIntegration.resources updated = MCPIntegration.resources original
       ∧ MCPIntegration.configuration updated
         = MCPIntegration.configuration original
       ∧ MCPIntegration.stars updated = MCPIntegration.stars original
       ∧ MCPIntegration.reviews updated = MCPIntegration.reviews original
       ∧ MCPIntegration.uses updated = MCPIntegration.uses original
       ∧ MCPIntegration.emoji updated = MCPIntegration.emoji original).
Proof.
  unfold apiClient.publishMCP, apiClient.updateMCP, apiClient.await. simpl.
  split.
  - intros Habsent. by rewrite find_absent.
  - intros (index & original & Hfind & Hlookup & Hid)%find_present.
    exists index, original. eexists. split; [exact Hfind|].
    rewrite Hfind. simpl. split_and!; try reflexivity. done.
Qed.

Lemma publishMCP_publishes_witness :
  (apiClient.publishMCP Sample.iso 1700000000000 "missing-id"
     apiClient.mockMCPs).1
  = apiClient.Rejected (apiClient.mkError "MCP not found")
  ∧ MCPIntegration.published
      <$> apiClient.fulfilled
            (apiClient.publishMCP Sample.iso 1700000000000 "3"
               Sample.after_create_Y)
    = Some true.
Proof.
  split.
  - rewrite (proj1 (publishMCP_publishes Sample.iso 1700000000000
                      "missing-id" apiClient.mockMCPs)); [reflexivity|].
    vm_compute. intros Hin.
    repeat (apply elem_of_cons in Hin as [Heq|Hin]; [discriminate Heq|]).
    by apply elem_of_nil in Hin.
  - destruct (proj2 (publishMCP_publishes Sample.iso 1700000000000 "3"
                       Sample.after_create_Y))
      as (index & original & updated & _ & Hrun & Hpub & _).
    + vm_compute. do 2 apply list_elem_of_further. apply list_elem_of_here.
    + unfold apiClient.fulfilled. rewrite Hrun. simpl. by rewrite Hpub.
Defined.

(** X11.  [deleteMCP] with an identifier of the collection removes one
    entry, the first that has the identifier, and fulfils: the collection
    is one shorter.  When identifiers are distinct, none of the remaining
    integrations has the identifier, and [getMCP] answers [null] for it. *)
Theorem deleteMCP_removes_first (id : string) (db : list MCPIntegration.t) :
  id ∈ MCPIntegration.id <$> db →
  ∃ index original,
    list_find (λ mcp, MCPIntegration.id mcp = id) db = Some (index, original)
    ∧ apiClient.deleteMCP id db = (apiClient.Fulfilled (), delete index db)
    ∧ S (length (delete index db)) = length db
    ∧ (NoDup (MCPIntegration.id <$> db) →
       (id ∉ MCPIntegration.id <$> delete index db)
       ∧ apiClient.getMCP id (delete index db)
         = (apiClient.Fulfilled None, delete index db)).
Proof.
  intros (index & original & Hfind & Hlookup & Hid)%find_present.
  exists index, original. split; [exact Hfind|].
  unfold apiClient.deleteMCP, apiClient.getMCP, apiClient.await. simpl.
  rewrite Hfind. simpl. split_and!; [reflexivity| |].
  - rewrite length_delete by eauto.
    apply lookup_lt_Some in Hlookup. lia.
  - intros Hnd.
    assert (id ∉ MCPIntegration.id <$> delete index db) as Hgone.
    { rewrite list_fmap_delete. apply delete_at_occurrence; [done|].
      by rewrite list_lookup_fmap, Hlookup, <- Hid. }
    split; [done|]. by rewrite find_absent.
Qed.

Lemma deleteMCP_removes_first_witness :
  apiClient.deleteMCP "2" apiClient.mockMCPs
  = (apiClient.Fulfilled (), delete 1 apiClient.mockMCPs)
  ∧ apiClient.getMCP "2" (delete 1 apiClient.mockMCPs)
    = (apiClient.Fulfilled None, delete 1 apiClient.mockMCPs).
Proof.
  destruct (deleteMCP_removes_first "2" apiClient.mockMCPs)
    as (index & original & Hfind & Hrun & _ & Hgone).
  - vm_compute. apply list_elem_of_further, list_elem_of_here.
  - assert (index = 1) as -> by (vm_compute in Hfind; congruence).
    split; [exact Hrun|]. apply Hgone. vm_compute.
    repeat (apply NoDup_cons; split;
            [intros Hin;
             repeat (apply elem_of_cons in Hin as [Heq|Hin]; [discriminate Heq|]);
             by apply elem_of_nil in Hin|]).
    apply NoDup_nil_2.
Defined.

(** X12.  [forkMCP] with an identifier that no integration has rejects
    with "MCP not found" and leaves the collection as it was. *)
Theorem forkMCP_missing_rejects (toISOString : Z → string) (now now' : Z)
    (id : string) (db : list MCPIntegration.t) :
  id ∉ MCPIntegration.id <$> db →
  apiClient.forkMCP toISOString now now' id db
  = (apiClient.Rejected (apiClient.mkError "MCP not found"), db).
Proof.
  intros Habsent. unfold apiClient.forkMCP, apiClient.getMCP, apiClient.await.
  simpl. by rewrite find_absent.
Qed.

Lemma forkMCP_missing_rejects_witness :
  apiClient.forkMCP Sample.iso 1700000000300 1700000000800 "missing-id"
    apiClient.mockMCPs
  = (apiClient.Rejected (apiClient.mkError "MCP not found"), apiClient.mockMCPs).
Proof.
  apply forkMCP_missing_rejects. vm_compute. intros Hin.
  repeat (apply elem_of_cons in Hin as [Heq|Hin]; [discriminate Heq|]).
  by apply elem_of_nil in Hin.
Defined.

(** X13.  A fork is a copy: apart from identifier, name, [published] and
    author, which is "@currentuser", it has every field of its original,
    the two timestamps and the popularity figures included; neither
    timestamp is the clock's. *)
Theorem forkMCP_copies_original (toISOString : Z → string) (now now' : Z)
    (id : string) (db : list MCPIntegration.t) :
  id ∈ MCPIntegration.id <$> db →
  ∃ index original forked,
    list_find (λ mcp, MCPIntegration.id mcp = id) db = Some (index, original)
    ∧ apiClient.forkMCP toISOString now now' id db
      = (apiClient.Fulfilled forked, db ++ [forked])
    ∧ MCPIntegration.author forked = "@currentuser"
    ∧ MCPIntegration.description forked = MCPIntegration.description original
    ∧ MCPIntegration.version forked = MCPIntegration.version original
    ∧ MCPIntegration.format forked = MCPIntegration.format original
    ∧ MCPIntegration.createdAt forked = MCPIntegration.createdAt original
    ∧ MCPIntegration.updatedAt forked = MCPIntegration.updatedAt original
    ∧ MCPIntegration.apis forked = MCPIntegration.apis original
    ∧ MCPIntegration.tools forked = MCPIntegration.tools original
    ∧ MCPIntegration.prompts forked = MCPIntegration.prompts original
    ∧ MCPIntegration.resources forked = MCPIntegration.resources original
    ∧ MCPIntegration.configuration forked
      = MCPIntegration.configuration original
    ∧ MCPIntegration.stars forked = MCPIntegration.stars original
    ∧ MCPIntegration.reviews forked = MCPIntegration.reviews original
    ∧ MCPIntegration.uses forked = MCPIntegration.uses original
    ∧ MCPIntegration.emoji forked = MCPIntegration.emoji original.
Proof.
  intros (index & original & Hfind & _ & Hid)%find_present.
  exists index, original. eexists. split; [exact Hfind|].
  unfold apiClient.forkMCP, apiClient.getMCP, apiClient.await. simpl.
  rewrite Hfind. unfold apiClient.createMCP, apiClient.await. simpl.
  split_and!; try reflexivity.
  all: by destruct original
            as [? ? ? ? ? ? ? ? ? ? ? ? ? ? [| |?] [| |?] [| |?] [| |?]].
Qed.

Lemma forkMCP_copies_original_witness :
  MCPIntegration.updatedAt
    <$> apiClient.fulfilled
          (apiClient.forkMCP Sample.iso 1700000000300 1700000000800 "2"
             apiClient.mockMCPs)
  = Some "2024-01-18".
Proof.
  destruct (forkMCP_copies_original Sample.iso 1700000000300 1700000000800
              "2" apiClient.mockMCPs)
    as (index & original & forked & Hfind & Hrun & Hcopy).
  - vm_compute. apply list_elem_of_further, list_elem_of_here.
  - unfold apiClient.fulfilled. rewrite Hrun. simpl.
    destruct Hcopy as (_ & _ & _ & _ & _ & -> & _).
    vm_compute in Hfind. by injection Hfind as _ <-.
Defined.

(** X14.  Creating an integration under an identifier that the collection
    does not have and then deleting that identifier gives the collection
    back. *)
Theorem create_then_delete_restores (toISOString : Z → string) (now : Z)
    (data : PartialMCPIntegration.t) (db : list MCPIntegration.t) :
  default (Date_now_toString now) (PartialMCPIntegration.id data)
    ∉ MCPIntegration.id <$> db →
  ∃ created,
    apiClient.createMCP toISOString now data db
    = (apiClient.Fulfilled created, db ++ [created])
    ∧ apiClient.deleteMCP (MCPIntegration.id created) (db ++ [created])
      = (apiClient.Fulfilled (), db).
Proof.
  intros Hfresh. eexists.
  split; [unfold apiClient.createMCP, apiClient.await; simpl; reflexivity|].
  unfold apiClient.deleteMCP, apiClient.await. simpl.
  rewrite (find_appended _ _ db Hfresh) by reflexivity. simpl.
  unfold apiClient.splice1. do 2 f_equal.
  rewrite delete_take_drop, take_app_length.
  rewrite drop_app_ge by lia.
  replace (S (length db) - length db) with 1 by lia. simpl.
  by rewrite app_nil_r.
Qed.

Lemma create_then_delete_restores_witness :
  ∃ created,
    apiClient.createMCP Sample.iso 1700000000000 (Sample.only_name "X")
      apiClient.mockMCPs
    = (apiClient.Fulfilled created, apiClient.mockMCPs ++ [created])
    ∧ apiClient.deleteMCP (MCPIntegration.id created)
        (apiClient.mockMCPs ++ [created])
      = (apiClient.Fulfilled (), apiClient.mockMCPs).
Proof.
  apply create_then_delete_restores. vm_compute. intros Hin.
  repeat (apply elem_of_cons in Hin as [Heq|Hin]; [discriminate Heq|]).
  by apply elem_of_nil in Hin.
Defined.

(** X15.  After an [updateMCP] whose partial leaves the identifier alone,
    [getMCP] of the identifier answers the updated integration. *)
Theorem update_then_get (toISOString : Z → string) (now : Z) (id : string)
    (data : PartialMCPIntegration.t) (db : list MCPIntegration.t) :
  id ∈ MCPIntegration.id <$> db →
  PartialMCPIntegration.id data = None ∨ PartialMCPIntegration.id data = Some id →
  ∃ updated db',
    apiClient.updateMCP toISOString now id data db
    = (apiClient.Fulfilled updated, db')
    ∧ apiClient.getMCP id db' = (apiClient.Fulfilled (Some updated), db').
Proof.
  intros (index & original & Hfind & Hlookup & Hid)%find_present Hdata.
  do 2 eexists.
  unfold apiClient.updateMCP, apiClient.getMCP, apiClient.await. simpl.
  rewrite Hfind. simpl. split; [reflexivity|].
  apply list_find_Some in Hfind as (_ & _ & Hfirst).
  match goal with
  | |- context [list_find ?Q (<[index := ?u]> db)] =>
      assert (list_find Q (<[index := u]> db) = Some (index, u)) as ->
  end; [|done].
  apply list_find_Some. split_and!.
  - apply list_lookup_insert_eq. by eapply lookup_lt_Some.
  - simpl. unfold over. destruct Hdata as [-> | ->]; simpl; congruence.
  - intros j y Hj Hlt. rewrite list_lookup_insert_ne in Hj by lia. eauto.
Qed.

Lemma update_then_get_witness :
  (λ found : option MCPIntegration.t, MCPIntegration.name <$> found)
    <$> apiClient.fulfilled
          (apiClient.getMCP "2"
             (apiClient.updateMCP Sample.iso 1700000000000 "2"
                (Sample.only_name "X") apiClient.mockMCPs).2)
  = Some (Some "X").
Proof.
  destruct (update_then_get Sample.iso 1700000000000 "2"
              (Sample.only_name "X") apiClient.mockMCPs)
    as (updated & db' & Hrun & Hget).
  - vm_compute. apply list_elem_of_further, list_elem_of_here.
  - by left.
  - rewrite Hrun. cbn [snd]. unfold apiClient.fulfilled. rewrite Hget.
    cbn [fst fmap option_fmap option_map].
    vm_compute in Hrun. by injection Hrun as <- _.
Defined.

(** X16.  [executeMCP] and [getUsageStats] look at nothing: whatever the
    identifier and the collection, known or not, they fulfil and leave the
    collection as it is; the result of [executeMCP] depends on the query
    alone, which it echoes as the details of its first step.  [getMCPs]
    fulfils with the collection itself and leaves it as it is. *)
Theorem executeMCP_ignores_state (id id' query : string)
    (db db' : list MCPIntegration.t) :
  ∃ result stats,
    apiClient.executeMCP id query db = (apiClient.Fulfilled result, db)
    ∧ apiClient.executeMCP id' query db' = (apiClient.Fulfilled result, db')
    ∧ TestResult.success result = true
    ∧ TestResult.error result = None
    ∧ ExecutionStep.details <$> (TestResult.executionFlow result ≫= head)
      = Some query
    ∧ apiClient.getUsageStats db = (apiClient.Fulfilled stats, db)
    ∧ apiClient.getUsageStats db' = (apiClient.Fulfilled stats, db')
    ∧ apiClient.getMCPs db = (apiClient.Fulfilled db, db).
Proof. do 2 eexists. split_and!; reflexivity. Qed.

(** ** The storage helper, beyond the claims *)

Section MoreStorageFacts.
Import mockStorage.

Lemma internalize_strings (ids : list string) :
  InternalizeJSON <$> (JStr <$> ids) = VStr <$> ids.
Proof. rewrite <- list_fmap_compose. by apply list_fmap_ext. Qed.

Lemma stringify_strings (ids : list string) :
  JSON_stringify (VArr (VStr <$> ids)) = Doc (JArr (JStr <$> ids)).
Proof.
  unfold JSON_stringify. simpl. do 2 f_equal.
  rewrite <- list_fmap_compose. by apply list_fmap_ext.
Qed.

Lemma getMCPList_reads (e : env) (ids : list string) :
  window e = true → index_reads e ids →
  eval getMCPList e = inr (VArr (VStr <$> ids)).
Proof.
  intros Hw Hreads. unfold eval. rewrite getMCPList_run. simpl. rewrite Hw.
  destruct Hreads as [-> | [[-> | [raw ->]] ->]]; simpl; [|done..].
  by rewrite internalize_strings.
Qed.

Lemma includes_strings (id : string) (ids : list string) :
  existsb (λ x, strict_eq_string x id) (VStr <$> ids) = bool_decide (id ∈ ids).
Proof.
  induction ids as [|i ids IH]; [done|].
  rewrite fmap_cons. simpl. rewrite IH.
  destruct (decide (i = id)) as [->|Hne].
  - rewrite (bool_decide_eq_true_2 (id = id)) by done. simpl. symmetry.
    apply bool_decide_eq_true_2, list_elem_of_here.
  - rewrite (bool_decide_eq_false_2 (i = id)) by done. simpl.
    apply bool_decide_ext. rewrite elem_of_cons.
    split; [by right|]. by intros [->|Hin].
Qed.

Lemma filter_strings (id : string) (ids : list string) :
  List.filter (λ x, negb (strict_eq_string x id)) (VStr <$> ids)
  = VStr <$> filter (λ i, i ≠ id) ids.
Proof.
  induction ids as [|i ids IH]; [done|].
  rewrite fmap_cons, filter_cons. simpl. rewrite IH.
  destruct (decide (i = id)) as [->|Hne].
  - rewrite bool_decide_eq_true_2 by done. simpl. by rewrite decide_False by auto.
  - rewrite bool_decide_eq_false_2 by done. simpl. by rewrite decide_True.
Qed.

(** The storage after a save, when the index reads as [ids]. *)
Lemma save_reads (m : MCPIntegration.t) (e : env) (ids : list string) :
  window e = true → MCPIntegration.id m ≠ "list" → index_reads e ids →
  exec (saveMCPToStorage m) e
  = mkEnv true
      (if decide (MCPIntegration.id m ∈ ids)
       then <[MCP_STORAGE_PREFIX +:+ MCPIntegration.id m :=
                JSON_stringify (MCPIntegration.to_value m)]> (localStorage e)
       else <[MCP_LIST_KEY := Doc (JArr (JStr <$> (ids ++ [MCPIntegration.id m])))]>
              (<[MCP_STORAGE_PREFIX +:+ MCPIntegration.id m :=
                   JSON_stringify (MCPIntegration.to_value m)]> (localStorage e))).
Proof.
  intros Hw Hother Hreads. rewrite saveMCPToStorage_run by done. cbv zeta.
  assert (MCP_STORAGE_PREFIX +:+ MCPIntegration.id m ≠ MCP_LIST_KEY) as Hkey
    by by rewrite key_is_index.
  rewrite (getMCPList_reads _ ids).
  - rewrite includes_strings. destruct e as [w st]. simpl in *. subst w.
    destruct (decide (_ ∈ ids)) as [Hin|Hnotin].
    + by rewrite bool_decide_eq_true_2.
    + rewrite bool_decide_eq_false_2 by done.
      unfold exec, setItem. simpl.
      replace (VArr (_ ++ _)) with (VArr (VStr <$> (ids ++ [MCPIntegration.id m])))
        by by rewrite fmap_app.
      by rewrite stringify_strings.
  - by destruct e.
  - destruct e as [w st]. unfold index_reads in *. simpl in *.
    by rewrite lookup_insert_ne.
Qed.

(** The storage after a delete, when the index reads as [ids]. *)
Lemma delete_reads (id : string) (e : env) (ids : list string) :
  window e = true → id ≠ "list" → index_reads e ids →
  exec (deleteMCPFromStorage id) e
  = mkEnv true
      (<[MCP_LIST_KEY := Doc (JArr (JStr <$> filter (λ i, i ≠ id) ids))]>
         (delete (MCP_STORAGE_PREFIX +:+ id) (localStorage e))).
Proof.
  intros Hw Hother Hreads. rewrite deleteMCPFromStorage_run by done. cbv zeta.
  assert (MCP_STORAGE_PREFIX +:+ id ≠ MCP_LIST_KEY) as Hkey
    by by rewrite key_is_index.
  rewrite (getMCPList_reads _ ids).
  - rewrite filter_strings, stringify_strings.
    destruct e as [w st]. simpl in *. by subst w.
  - by destruct e.
  - destruct e as [w st]. unfold index_reads in *. simpl in *.
    by rewrite lookup_delete_ne.
Qed.

Lemma map_items_strings (ToString : value → exn + string) (ids : list string)
    (e : env) :
  (∀ s, ToString (VStr s) = inr s) →
  map_items (λ id, k ← to_string ToString id; loadMCPFromStorage k)
            (VStr <$> ids) e
  = (inr ((λ id, if window e then default VNull (record_of e id) else VNull)
            <$> ids), e).
Proof.
  intros HToString. induction ids as [|id ids IH]; [done|].
  rewrite !fmap_cons. simpl.
  unfold mbind, stmt_bind, to_string, mret, stmt_ret in *.
  rewrite HToString. simpl. rewrite loadMCPFromStorage_run, IH. simpl.
  do 3 f_equal. unfold record_of.
  destruct (window e); [|done]. by destruct (localStorage e !! _) as [[]|].
Qed.

Lemma getAllMCPs_reads (ToString : value → exn + string) (e : env)
    (ids : list string) :
  window e = true → (∀ s, ToString (VStr s) = inr s) → index_reads e ids →
  getAllMCPs ToString e
  = (inr (List.filter not_null ((λ id, default VNull (record_of e id)) <$> ids)),
     e).
Proof.
  intros Hw HToString Hreads.
  pose proof (getMCPList_reads e ids Hw Hreads) as Hlist.
  unfold eval in Hlist. rewrite getMCPList_run in Hlist. simpl in Hlist.
  pose proof (map_items_strings ToString ids e HToString) as Hmap.
  unfold getAllMCPs, try_catch, window_undefined.
  unfold mbind, stmt_bind, mret, stmt_ret in *. simpl. rewrite Hw. simpl.
  rewrite getMCPList_run. injection Hlist as ->. simpl.
  rewrite Hmap. by rewrite Hw.
Qed.

Lemma filter_not_null_records (f : string → option value) (ids : list string) :
  List.filter not_null ((λ id, default VNull (f id)) <$> ids)
  = omap (λ id, v ← f id; if not_null v then Some v else None) ids.
Proof.
  induction ids as [|id ids IH]; [done|].
  rewrite fmap_cons, omap_cons_match. simpl. rewrite IH.
  destruct (f id) as [v|]; simpl; [|done]. by destruct (not_null v).
Qed.

(** A save or a delete writes two keys at most: the record of its
    identifier and the index. *)
Lemma writes_two_keys (m : MCPIntegration.t) (id key : string) (e : env) :
  (key ≠ MCP_STORAGE_PREFIX +:+ MCPIntegration.id m → key ≠ MCP_LIST_KEY →
   localStorage (exec (saveMCPToStorage m) e) !! key = localStorage e !! key)
  ∧ (key ≠ MCP_STORAGE_PREFIX +:+ id → key ≠ MCP_LIST_KEY →
     localStorage (exec (deleteMCPFromStorage id) e) !! key
     = localStorage e !! key)
  ∧ window (exec (saveMCPToStorage m) e) = window e
  ∧ window (exec (deleteMCPFromStorage id) e) = window e.
Proof.
  destruct (window e) eqn:Hw.
  2: { destruct (without_window e Hw) as (Hsave & Hdelete & _).
       by rewrite Hsave, Hdelete. }
  rewrite saveMCPToStorage_run, deleteMCPFromStorage_run by done.
  destruct e as [w st]. simpl in Hw. subst w.
  unfold exec, eval. rewrite !getMCPList_run. simpl. split_and!.
  - intros Hrecord Hindex.
    destruct (<[_ := _]> st !! MCP_LIST_KEY) as [[j|raw]|]; simpl;
      [destruct (InternalizeJSON j) as [ | |b|n|s|items|props]; simpl| |];
      try destruct (existsb _ items); simpl;
      by rewrite ?(lookup_insert_ne _ MCP_LIST_KEY), lookup_insert_ne by done.
  - intros Hrecord Hindex.
    destruct (delete _ st !! MCP_LIST_KEY) as [[j|raw]|]; simpl;
      [destruct (InternalizeJSON j) as [ | |b|n|s|items|props]; simpl| |];
      by rewrite ?(lookup_insert_ne _ MCP_LIST_KEY), lookup_delete_ne by done.
  - destruct (<[_ := _]> st !! MCP_LIST_KEY) as [[j|raw]|]; simpl;
      [destruct (InternalizeJSON j) as [ | |b|n|s|items|props]; simpl| |];
      try destruct (existsb _ items); done.
  - destruct (delete _ st !! MCP_LIST_KEY) as [[j|raw]|]; simpl;
      [destruct (InternalizeJSON j) as [ | |b|n|s|items|props]; simpl| |];
      done.
Qed.

Lemma record_key_inj (k id : string) :
  MCP_STORAGE_PREFIX +:+ k = MCP_STORAGE_PREFIX +:+ id → k = id.
Proof. intros Heq. by apply (inj (String.append MCP_STORAGE_PREFIX)) in Heq. Qed.

Lemma getAllMCPs_no_array (ToString : value → exn + string) (e : env) :
  match eval getMCPList e with
  | inr (VArr _) => False
  | _ => True
  end →
  eval (getAllMCPs ToString) e = inr [].
Proof.
  unfold eval. rewrite getMCPList_run.
  unfold getAllMCPs, try_catch, window_undefined.
  unfold mbind, stmt_bind, mret, stmt_ret. simpl.
  destruct (window e) eqn:Hw; simpl; [|done].
  rewrite getMCPList_run, Hw. simpl.
  destruct (match localStorage e !! MCP_LIST_KEY with
            | Some (Doc j) => InternalizeJSON j
            | _ => VArr []
            end); simpl; done.
Qed.

(** X17.  Where [window] is not defined, nothing is read or written: a
    save and a delete leave the environment as it is, a load answers
    [null] and the listing is empty. *)
Theorem storage_without_window (ToString : value → exn + string)
    (m : MCPIntegration.t) (id : string) (e : env) :
  window e = false →
  exec (saveMCPToStorage m) e = e
  ∧ exec (deleteMCPFromStorage id) e = e
  ∧ loadMCPFromStorage id e = (inr VNull, e)
  ∧ getAllMCPs ToString e = (inr [], e).
Proof.
  intros Hw. destruct (without_window e Hw) as (Hsave & Hdelete & _).
  split_and!; [apply Hsave|apply Hdelete| |].
  - rewrite loadMCPFromStorage_run. by rewrite Hw.
  - unfold getAllMCPs, window_undefined.
    unfold mbind, stmt_bind, mret, stmt_ret. simpl. by rewrite Hw.
Qed.

Lemma storage_without_window_witness :
  exec (saveMCPToStorage (Sample.integration "a" (of_Z 1)))
       (mkEnv false ∅) = mkEnv false ∅
  ∧ getAllMCPs Sample.ToString (mkEnv false ∅) = (inr [], mkEnv false ∅).
Proof.
  destruct (storage_without_window Sample.ToString
              (Sample.integration "a" (of_Z 1)) "a" (mkEnv false ∅) eq_refl)
    as (Hsave & _ & _ & Hall).
  split; [exact Hsave|exact Hall].
Defined.

(** X18.  In a browser whose index reads as [ids], the listing is made of
    the records of these identifiers, in the order of the index; an
    identifier whose record is missing, is not JSON or is [null] is left
    out, and the others are still listed.  Nothing is written. *)
Theorem getAllMCPs_skips_unreadable (ToString : value → exn + string)
    (e : env) (ids : list string) :
  window e = true →
  (∀ s, ToString (VStr s) = inr s) →
  index_reads e ids →
  getAllMCPs ToString e
  = (inr (omap (λ id, v ← record_of e id; if not_null v then Some v else None)
               ids), e).
Proof.
  intros Hw HToString Hreads.
  rewrite (getAllMCPs_reads ToString e ids Hw HToString Hreads).
  by rewrite filter_not_null_records.
Qed.

Lemma getAllMCPs_skips_unreadable_witness :
  eval (getAllMCPs Sample.ToString) Sample.browser_with_corrupt_b
  = inr [MCPIntegration.to_value (Sample.integration "a" (of_Z 1));
         MCPIntegration.to_value (Sample.integration "c" (of_Z 2))].
Proof.
  unfold eval.
  rewrite (getAllMCPs_skips_unreadable Sample.ToString
             Sample.browser_with_corrupt_b ["a"; "b"; "c"]).
  - vm_compute. reflexivity.
  - reflexivity.
  - by intros s.
  - left. vm_compute. reflexivity.
Defined.

(** X19.  In a browser whose index reads as [ids], a save of an
    integration with an identifier other than "list" stores its record
    and registers the identifier once: at the end of the index when it is
    new, and where it was when it is known. *)
Theorem save_registers_identifier (m : MCPIntegration.t) (e : env)
    (ids : list string) :
  window e = true →
  MCPIntegration.id m ≠ "list" →
  index_reads e ids →
  index_reads (exec (saveMCPToStorage m) e)
    (if decide (MCPIntegration.id m ∈ ids) then ids
     else ids ++ [MCPIntegration.id m])
  ∧ localStorage (exec (saveMCPToStorage m) e)
      !! (MCP_STORAGE_PREFIX +:+ MCPIntegration.id m)
    = Some (JSON_stringify (MCPIntegration.to_value m)).
Proof.
  intros Hw Hother Hreads.
  assert (MCP_STORAGE_PREFIX +:+ MCPIntegration.id m ≠ MCP_LIST_KEY) as Hkey
    by by rewrite key_is_index.
  rewrite (save_reads m e ids Hw Hother Hreads).
  unfold index_reads in *. simpl.
  destruct (decide (MCPIntegration.id m ∈ ids)) as [Hin|Hnotin].
  - rewrite lookup_insert_ne, lookup_insert_eq by done. split; [|done].
    destruct Hreads as [Hreads | [_ ->]]; [by left|].
    by apply elem_of_nil in Hin.
  - rewrite lookup_insert_eq, lookup_insert_ne, lookup_insert_eq by done.
    split; [by left|done].
Qed.

Lemma save_registers_identifier_witness :
  index_reads
    (exec (saveMCPToStorage (Sample.integration "a" (of_Z 2)))
       (save_all [Sample.integration "a" (of_Z 1);
                  Sample.integration "b" (of_Z 1)] Sample.browser))
    ["a"; "b"].
Proof.
  apply (save_registers_identifier (Sample.integration "a" (of_Z 2))
           (save_all [Sample.integration "a" (of_Z 1);
                      Sample.integration "b" (of_Z 1)] Sample.browser)
           ["a"; "b"]).
  - reflexivity.
  - discriminate.
  - left. vm_compute. reflexivity.
Defined.

(** X20.  In a browser whose index reads as [ids], a delete of an
    identifier other than "list" removes its record and every occurrence
    of it in the index, the other identifiers keeping their order; a
    second delete changes nothing more. *)
Theorem delete_unregisters_identifier (id : string) (e : env)
    (ids : list string) :
  window e = true →
  id ≠ "list" →
  index_reads e ids →
  index_reads (exec (deleteMCPFromStorage id) e) (filter (λ i, i ≠ id) ids)
  ∧ record_of (exec (deleteMCPFromStorage id) e) id = None
  ∧ exec (deleteMCPFromStorage id) (exec (deleteMCPFromStorage id) e)
    = exec (deleteMCPFromStorage id) e.
Proof.
  intros Hw Hother Hreads.
  assert (MCP_STORAGE_PREFIX +:+ id ≠ MCP_LIST_KEY) as Hkey
    by by rewrite key_is_index.
  rewrite (delete_reads id e ids Hw Hother Hreads).
  assert (index_reads
            (mkEnv true
               (<[MCP_LIST_KEY := Doc (JArr (JStr <$> filter (λ i, i ≠ id) ids))]>
                  (delete (MCP_STORAGE_PREFIX +:+ id) (localStorage e))))
            (filter (λ i, i ≠ id) ids)) as Hafter.
  { left. simpl. by rewrite lookup_insert_eq. }
  split_and!; [exact Hafter| |].
  - unfold record_of. simpl.
    by rewrite lookup_insert_ne, lookup_delete_eq by done.
  - erewrite (delete_reads id) by (reflexivity || eassumption). simpl. f_equal.
    rewrite filter_all by (apply Forall_forall; by intros i [Hne _]%list_elem_of_filter).
    rewrite delete_insert_ne by done.
    rewrite (delete_id (delete _ _)) by apply lookup_delete_eq.
    by rewrite insert_insert_eq.
Qed.

Lemma delete_unregisters_identifier_witness :
  index_reads
    (exec (deleteMCPFromStorage "a")
       (save_all [Sample.integration "a" (of_Z 1);
                  Sample.integration "b" (of_Z 1)] Sample.browser))
    ["b"].
Proof.
  apply (delete_unregisters_identifier "a"
           (save_all [Sample.integration "a" (of_Z 1);
                      Sample.integration "b" (of_Z 1)] Sample.browser)
           ["a"; "b"]).
  - reflexivity.
  - discriminate.
  - left. vm_compute. reflexivity.
Defined.



(** X22.  In a browser whose index reads as [ids], a saved integration
    that JSON can represent, with an identifier other than "list", is in
    the listing afterwards.  When its identifier is new and "list" is not
    an entry of the index, the listing is the one before followed by the
    integration. *)
Theorem save_then_listed (ToString : value → exn + string)
    (m : MCPIntegration.t) (e : env) (ids : list string) :
  window e = true →
  (∀ s, ToString (VStr s) = inr s) →
  MCPIntegration.id m ≠ "list" →
  plain (MCPIntegration.to_value m) = true →
  index_reads e ids →
  ∃ before after,
    eval (getAllMCPs ToString) e = inr before
    ∧ eval (getAllMCPs ToString) (exec (saveMCPToStorage m) e) = inr after
    ∧ MCPIntegration.to_value m ∈ after
    ∧ (MCPIntegration.id m ∉ ids → "list" ∉ ids →
       after = before ++ [MCPIntegration.to_value m]).
Proof.
  intros Hw HToString Hother Hplain Hreads.
  assert (MCP_STORAGE_PREFIX +:+ MCPIntegration.id m ≠ MCP_LIST_KEY) as Hkey
    by by rewrite key_is_index.
  pose proof (save_reads m e ids Hw Hother Hreads) as Hsave.
  assert (window (exec (saveMCPToStorage m) e) = true) as Hw'
    by by rewrite Hsave.
  assert (record_of (exec (saveMCPToStorage m) e) (MCPIntegration.id m)
          = Some (MCPIntegration.to_value m)) as Hrecord.
  { unfold record_of. rewrite (proj2 (save_writes_record m e Hw)).
    pose proof (parse_stringify _ Hplain) as Hparse.
    destruct (JSON_stringify _) as [j|raw];
      [by injection Hparse as ->|discriminate Hparse]. }
  assert (∀ k, k ≠ MCPIntegration.id m → k ≠ "list" →
               record_of (exec (saveMCPToStorage m) e) k = record_of e k)
    as Hothers.
  { intros k Hk Hlist. unfold record_of.
    rewrite (proj1 (writes_two_keys m "" _ e)); [done| |by rewrite key_is_index].
    intros Heq%record_key_inj. done. }
  assert (index_reads (exec (saveMCPToStorage m) e)
            (if decide (MCPIntegration.id m ∈ ids) then ids
             else ids ++ [MCPIntegration.id m])) as Hreads'.
  { rewrite Hsave. unfold index_reads in *. simpl.
    destruct (decide (_ ∈ ids)) as [Hin|Hnotin].
    - rewrite lookup_insert_ne by done.
      destruct Hreads as [Hreads | [_ ->]]; [by left|].
      by apply elem_of_nil in Hin.
    - left. by rewrite lookup_insert_eq. }
  unfold eval.
  rewrite (getAllMCPs_reads ToString e ids Hw HToString Hreads).
  rewrite (getAllMCPs_reads ToString _ _ Hw' HToString Hreads').
  do 2 eexists. split; [reflexivity|]. split; [reflexivity|]. simpl. split.
  - apply list_elem_of_In, filter_In. split; [|done].
    apply list_elem_of_In, list_elem_of_fmap.
    exists (MCPIntegration.id m). rewrite Hrecord. split; [done|].
    destruct (decide (_ ∈ ids)); [done|].
    apply elem_of_app. right. apply list_elem_of_here.
  - intros Hfresh Hnolist. rewrite decide_False by done.
    rewrite fmap_app, List.filter_app. simpl. rewrite Hrecord. simpl. f_equal.
    f_equal. apply list_fmap_ext. intros i k Hk. simpl.
    apply list_elem_of_lookup_2 in Hk.
    rewrite Hothers; [done| |]; by intros ->.
Qed.

Lemma save_then_listed_witness :
  eval (getAllMCPs Sample.ToString)
    (exec (saveMCPToStorage (Sample.integration "b" (of_Z 1)))
       (save_all [Sample.integration "a" (of_Z 1)] Sample.browser))
  = inr [MCPIntegration.to_value (Sample.integration "a" (of_Z 1));
         MCPIntegration.to_value (Sample.integration "b" (of_Z 1))].
Proof.
  destruct (save_then_listed Sample.ToString (Sample.integration "b" (of_Z 1))
              (save_all [Sample.integration "a" (of_Z 1)] Sample.browser) ["a"])
    as (before & after & Hbefore & Hafter & _ & Hnew).
  - reflexivity.
  - by intros s.
  - discriminate.
  - reflexivity.
  - left. vm_compute. reflexivity.
  - rewrite Hafter, Hnew.
    + vm_compute in Hbefore. injection Hbefore as <-. reflexivity.
    + intros Hin. apply elem_of_cons in Hin as [Heq|Hin]; [discriminate Heq|].
      by apply elem_of_nil in Hin.
    + intros Hin. apply elem_of_cons in Hin as [Heq|Hin]; [discriminate Heq|].
      by apply elem_of_nil in Hin.
Defined.

(** X23.  A save and a delete leave the records of the other identifiers
    alone: whatever the storage holds, an identifier other than the one
    saved or deleted, and other than "list", loads afterwards as it did
    before. *)
Theorem other_records_untouched (m : MCPIntegration.t) (id k : string)
    (e : env) :
  k ≠ "list" →
  (k ≠ MCPIntegration.id m →
   eval (loadMCPFromStorage k) (exec (saveMCPToStorage m) e)
   = eval (loadMCPFromStorage k) e)
  ∧ (k ≠ id →
     eval (loadMCPFromStorage k) (exec (deleteMCPFromStorage id) e)
     = eval (loadMCPFromStorage k) e).
Proof.
  intros Hlist.
  assert (MCP_STORAGE_PREFIX +:+ k ≠ MCP_LIST_KEY) as Hkey
    by by rewrite key_is_index.
  destruct (writes_two_keys m id (MCP_STORAGE_PREFIX +:+ k) e)
    as (Hsave & Hdelete & Hwsave & Hwdelete).
  unfold eval. rewrite !loadMCPFromStorage_run. simpl.
  rewrite Hwsave, Hwdelete. split; intros Hk.
  - rewrite Hsave; [done| |done]. by intros Heq%record_key_inj.
  - rewrite Hdelete; [done| |done]. by intros Heq%record_key_inj.
Qed.

Lemma other_records_untouched_witness :
  eval (loadMCPFromStorage "a")
    (exec (deleteMCPFromStorage "b")
       (save_all [Sample.integration "a" (of_Z 1);
                  Sample.integration "b" (of_Z 1)] Sample.browser))
  = inr (MCPIntegration.to_value (Sample.integration "a" (of_Z 1))).
Proof.
  rewrite (proj2 (other_records_untouched (Sample.integration "b" (of_Z 1))
                    "b" "a"
                    (save_all [Sample.integration "a" (of_Z 1);
                               Sample.integration "b" (of_Z 1)] Sample.browser)
                    ltac:(discriminate))); [|discriminate].
  vm_compute. reflexivity.
Defined.

(** X24.  In a browser, a save of an integration whose identifier is
    "list" writes its record over the index: the listing is empty
    afterwards, whatever was stored, and it stays empty when further
    integrations are saved. *)
Theorem save_of_list_empties_listing (ToString : value → exn + string)
    (m : MCPIntegration.t) (ms : list MCPIntegration.t) (e : env) :
  window e = true →
  MCPIntegration.id m = "list" →
  eval (getAllMCPs ToString) (exec (saveMCPToStorage m) e) = inr []
  ∧ eval (getAllMCPs ToString) (save_all ms (exec (saveMCPToStorage m) e))
    = inr [].
Proof.
  intros Hw Hlist.
  assert (∀ e', window e' = true →
            (∃ members, localStorage e' !! MCP_LIST_KEY
                        = Some (Doc (JObj members))) →
            eval (getAllMCPs ToString) e' = inr []) as Hempty.
  { intros e' Hw' [members Hindex]. apply getAllMCPs_no_array.
    unfold eval. rewrite getMCPList_run. simpl. by rewrite Hw', Hindex. }
  assert (∀ m' e', window e' = true →
            (∃ members, localStorage e' !! MCP_LIST_KEY
                        = Some (Doc (JObj members))) →
            window (exec (saveMCPToStorage m') e') = true
            ∧ ∃ members, localStorage (exec (saveMCPToStorage m') e')
                           !! MCP_LIST_KEY = Some (Doc (JObj members)))
    as Hstep.
  { intros m' e' Hw' [members Hindex].
    destruct (save_writes_record m' e' Hw') as [Hw'' Hrecord].
    split; [done|].
    destruct (decide (MCPIntegration.id m' = "list")) as [Hl|Hl].
    - apply key_is_index in Hl. rewrite Hl in Hrecord. rewrite Hrecord.
      destruct (stringify_integration m') as [members' ->]. eauto.
    - exists members. rewrite <- Hindex.
      rewrite saveMCPToStorage_run by done.
      assert (MCP_STORAGE_PREFIX +:+ MCPIntegration.id m' ≠ MCP_LIST_KEY)
        as Hkey by by rewrite key_is_index.
      destruct e' as [w' st']. simpl in *. subst w'.
      unfold exec, eval. rewrite getMCPList_run. simpl.
      rewrite lookup_insert_ne, Hindex by done. simpl.
      by rewrite lookup_insert_ne. }
  assert (window (exec (saveMCPToStorage m) e) = true
          ∧ ∃ members, localStorage (exec (saveMCPToStorage m) e)
                         !! MCP_LIST_KEY = Some (Doc (JObj members)))
    as [Hw1 Hindex1].
  { destruct (save_writes_record m e Hw) as [Hw' Hrecord]. split; [done|].
    apply key_is_index in Hlist. rewrite Hlist in Hrecord. rewrite Hrecord.
    destruct (stringify_integration m) as [members ->]. eauto. }
  split; [by apply Hempty|].
  generalize dependent (exec (saveMCPToStorage m) e). clear Hw Hlist e.
  induction ms as [|m' ms IH]; intros e Hw Hindex; [by apply Hempty|].
  simpl. destruct (Hstep m' e Hw Hindex) as [Hw' Hindex']. by apply IH.
Qed.

Lemma save_of_list_empties_listing_witness :
  eval (getAllMCPs Sample.ToString)
    (save_all [Sample.integration "c" (of_Z 1)]
       (exec (saveMCPToStorage (Sample.integration "list" (of_Z 1)))
          (save_all [Sample.integration "a" (of_Z 1);
                     Sample.integration "b" (of_Z 1)] Sample.browser)))
  = inr [].
Proof.
  apply (save_of_list_empties_listing Sample.ToString
           (Sample.integration "list" (of_Z 1))
           [Sample.integration "c" (of_Z 1)]
           (save_all [Sample.integration "a" (of_Z 1);
                      Sample.integration "b" (of_Z 1)] Sample.browser));
    reflexivity.
Defined.

(** X25.  What [createNewMCP] makes can be stored: whatever the clock, in
    a browser a save of it followed by a load of its identifier, the
    decimal of the clock, gives it back. *)
Theorem createNewMCP_round_trip (now : Z) (iso : string) (e : env) :
  window e = true →
  MCPIntegration.id (createNewMCP now iso) = Date_now_toString now
  ∧ eval (loadMCPFromStorage (Date_now_toString now))
         (exec (saveMCPToStorage (createNewMCP now iso)) e)
    = inr (MCPIntegration.to_value (createNewMCP now iso)).
Proof.
  intros Hw. split; [reflexivity|].
  destruct (save_writes_record (createNewMCP now iso) e Hw) as [Hw' Hrecord].
  unfold eval. rewrite loadMCPFromStorage_run. simpl.
  change (Date_now_toString now)
    with (MCPIntegration.id (createNewMCP now iso)) at 1.
  rewrite Hw', Hrecord.
  assert (plain (MCPIntegration.to_value (createNewMCP now iso)) = true)
    as Hplain by reflexivity.
  pose proof (parse_stringify _ Hplain) as Hparse.
  destruct (JSON_stringify _) as [j|raw]; [exact Hparse|discriminate Hparse].
Qed.

Lemma createNewMCP_round_trip_witness :
  eval (loadMCPFromStorage "1700000000000")
       (exec (saveMCPToStorage
                (createNewMCP 1700000000000 (Sample.iso 1700000000000)))
             Sample.browser)
  = inr (MCPIntegration.to_value
           (createNewMCP 1700000000000 (Sample.iso 1700000000000))).
Proof.
  apply (createNewMCP_round_trip 1700000000000 (Sample.iso 1700000000000)
           Sample.browser). reflexivity.
Defined.

End MoreStorageFacts.

(** ** The proxy route *)

Lemma append_empty_r (s : string) : s +:+ "" = s.
Proof.
  induction s as [|a s IH]; [done|].
  change (String a s +:+ "") with (String a (s +:+ "")). by rewrite IH.
Qed.

(** X26.  What the proxy hands to [fetch].  For GET and DELETE the body of
    the request is not read, so nothing is forwarded and a body that
    cannot be read does no harm; for any other method the body is
    forwarded, unless it is empty.  The only header sent is the JSON
    content type, and the address has no question mark when the query is
    empty. *)
Theorem proxy_request_body_policy (request : proxy.NextRequest)
    (path : list string) (method : string) :
  (method = "GET" ∨ method = "DELETE" →
   proxy.outgoing request path method
   = proxy.Returned
       (proxy.targetUrl request path,
        proxy.mkInit method [("Content-Type", "application/json")] None))
  ∧ (method ≠ "GET" → method ≠ "DELETE" →
     ∀ text, proxy.request_text request = proxy.Returned text →
       proxy.outgoing request path method
       = proxy.Returned
           (proxy.targetUrl request path,
            proxy.mkInit method [("Content-Type", "application/json")]
              (if decide (text = "") then None else Some text)))
  ∧ (proxy.searchParams request = "" →
     proxy.targetUrl request path
     = proxy.AWS_BACKEND_URL +:+ "/" +:+ String.concat "/" path).
Proof.
  split_and!.
  - unfold proxy.outgoing. by intros [-> | ->].
  - intros Hget Hdelete text Htext. unfold proxy.outgoing.
    rewrite !bool_decide_eq_true_2 by done. simpl. rewrite Htext. simpl.
    by destruct text.
  - intros Hquery. unfold proxy.targetUrl.
    rewrite decide_True by done. by rewrite append_empty_r.
Qed.

Lemma proxy_request_body_policy_witness :
  proxy.outgoing
    (proxy.mkRequest "" (proxy.Thrown (proxy.mkError "body is unusable")))
    ["api"; "mcps"; "7"] "DELETE"
  = proxy.Returned
      ("http://3.136.147.20:8000/api/mcps/7",
       proxy.mkInit "DELETE" [("Content-Type", "application/json")] None).
Proof.
  destruct (proxy_request_body_policy
              (proxy.mkRequest "" (proxy.Thrown (proxy.mkError "body is unusable")))
              ["api"; "mcps"; "7"] "DELETE") as (Hnobody & _ & Hurl).
  rewrite Hnobody by by right. rewrite Hurl by reflexivity. reflexivity.
Defined.

(** X27.  When the body could be read, [fetch] answered, the text of the
    reply could be read and the status of the reply is one that can carry
    a body (200 to 599, and not 101, 103, 204, 205 or 304), the proxy
    answers with that status and that text, the content type of the reply
    (JSON when it has none) and the three CORS headers. *)
Theorem proxy_forwards_reply (fetch : string → proxy.RequestInit →
                                      proxy.attempt proxy.Reply)
    (refused : Z → string) (request : proxy.NextRequest) (path : list string)
    (method url : string) (init : proxy.RequestInit) (reply : proxy.Reply)
    (data : string) :
  proxy.outgoing request path method = proxy.Returned (url, init) →
  fetch url init = proxy.Returned reply →
  proxy.reply_text reply = proxy.Returned data →
  (200 ≤ proxy.status reply ≤ 599)%Z →
  proxy.null_body_status (proxy.status reply) = false →
  proxy.proxyRequest fetch refused request path method
  = proxy.mkResponse (proxy.Text data) (proxy.status reply)
      (("Content-Type",
        apiClient.or_string (proxy.content_type reply) "application/json")
       :: proxy.CORS).
Proof.
  intros Hout Hfetch Htext Hrange Hnull. unfold proxy.proxyRequest.
  rewrite Hout. simpl. rewrite Hfetch. simpl. rewrite Htext. simpl.
  unfold proxy.new_NextResponse.
  by rewrite bool_decide_eq_true_2, Hnull by done.
Qed.

Lemma proxy_forwards_reply_witness :
  proxy.POST Sample.backend Sample.refused
    (proxy.mkRequest "page=2" (proxy.Returned "")) ["api"; "mcps"]
  = proxy.mkResponse (proxy.Text "[1,2]") 200
      (("Content-Type", "application/json") :: proxy.CORS).
Proof.
  apply (proxy_forwards_reply Sample.backend Sample.refused
           (proxy.mkRequest "page=2" (proxy.Returned "")) ["api"; "mcps"]
           "POST" "http://3.136.147.20:8000/api/mcps?page=2"
           (proxy.mkInit "POST" [("Content-Type", "application/json")] None)
           (proxy.mkReply 200 (Some "application/json")
              (proxy.Returned "[1,2]")) "[1,2]");
    try reflexivity.
  simpl. lia.
Defined.

(** X28.  Every failure ends in the same answer: status 500, the JSON
    object with "Proxy error" and the message of the error, and no CORS
    header.  That is so when the body cannot be read, when [fetch] fails,
    when the text of the reply cannot be read, and when the reply has a
    status that cannot carry a body: a reply 204, 205 or 304 of the
    backend is answered with 500. *)
Theorem proxy_failure_answers_500 (fetch : string → proxy.RequestInit →
                                           proxy.attempt proxy.Reply)
    (refused : Z → string) (request : proxy.NextRequest) (path : list string)
    (method : string) :
  let failure message :=
    proxy.mkResponse
      (proxy.JSONOf (VObj [("error", VStr "Proxy error");
                           ("details", VStr message)]))
      500 [("content-type", "application/json")] in
  (∀ error, proxy.outgoing request path method = proxy.Thrown error →
     proxy.proxyRequest fetch refused request path method
     = failure (proxy.message error))
  ∧ (∀ url init, proxy.outgoing request path method = proxy.Returned (url, init) →
     (∀ error, fetch url init = proxy.Thrown error →
        proxy.proxyRequest fetch refused request path method
        = failure (proxy.message error))
     ∧ (∀ reply, fetch url init = proxy.Returned reply →
        (∀ error, proxy.reply_text reply = proxy.Thrown error →
           proxy.proxyRequest fetch refused request path method
           = failure (proxy.message error))
        ∧ (∀ data, proxy.reply_text reply = proxy.Returned data →
           ¬ (200 ≤ proxy.status reply ≤ 599)%Z
           ∨ proxy.status reply ∈ [101; 103; 204; 205; 304]%Z →
           proxy.proxyRequest fetch refused request path method
           = failure (refused (proxy.status reply))))).
Proof.
  intros failure. unfold proxy.proxyRequest. split.
  - by intros error ->.
  - intros url init ->. simpl. split.
    + by intros error ->.
    + intros reply ->. simpl. split.
      * by intros error ->.
      * intros data -> Hstatus. simpl. unfold proxy.new_NextResponse.
        destruct (decide (200 ≤ proxy.status reply ≤ 599)%Z) as [Hin|Hout].
        -- destruct Hstatus as [Hout|Hnull]; [done|].
           rewrite bool_decide_eq_true_2 by done. simpl.
           unfold proxy.null_body_status.
           by rewrite bool_decide_eq_true_2.
        -- by rewrite bool_decide_eq_false_2.
Qed.

Lemma proxy_failure_answers_500_witness :
  proxy.response_status
    (proxy.DELETE Sample.backend Sample.refused
       (proxy.mkRequest "" (proxy.Returned "")) ["api"; "mcps"; "7"])
  = 500%Z.
Proof.
  destruct (proxy_failure_answers_500 Sample.backend Sample.refused
              (proxy.mkRequest "" (proxy.Returned "")) ["api"; "mcps"; "7"]
              "DELETE") as [_ Hsent].
  destruct (Hsent "http://3.136.147.20:8000/api/mcps/7"
              (proxy.mkInit "DELETE" [("Content-Type", "application/json")] None)
              eq_refl) as [_ Hreply].
  destruct (Hreply (proxy.mkReply 204 None (proxy.Returned "")) eq_refl)
    as [_ Hstatus].
  unfold proxy.DELETE. rewrite (Hstatus "" eq_refl); [reflexivity|].
  right. simpl. do 2 apply list_elem_of_further. apply list_elem_of_here.
Defined.
